(** * AtomDB: the species store of [atomdb/api.py]

    A shallow embedding of the element table, the species record, its
    MessagePack serialisation, the key-to-path addressing and the spline
    dispatch of [atomdb/api.py], with the properties the specification
    states about them.

    Python objects are values of [pyval]; an exception is the [Raise] branch
    of [result].  A [str] is held as a [string] of its UTF-8 bytes, a Python
    [float] as the eight bytes of its IEEE-754 binary64 pattern (the codec
    only moves them), a [numpy.ndarray] as its dtype, its shape and its
    C-order buffer. *)

From Stdlib Require Import ZArith List String Ascii Bool Lia.
From Stdlib.Strings Require Import Byte.
From Stdlib Require Import DecimalString DecimalPos DecimalZ FinFun.
From Stdlib Require Import Reals.
Import ListNotations.

Local Open Scope string_scope.
Local Open Scope list_scope.
Local Open Scope Z_scope.

Set Warnings "-register-all".

(** ** Python values and exceptions *)

Module Py.

(** The exception classes the functions of [api.py] can raise, each with
    its message.  [NotModelled] marks an operation of the interpreter or of
    a library that the embedding does not compute (float arithmetic, the
    [repr] of a float, MessagePack formats the packer never writes). *)
Inductive exn : Type :=
| TypeError (msg : string)
| ValueError (msg : string)
| KeyError (key : string)
| IndexError (msg : string)
| AttributeError (msg : string)
| OverflowError (msg : string)
| NotImplementedError (msg : string)
| FileNotFoundError (path : string)
| UnboundLocalError (name : string)
| OutOfData
| FormatError
| StackError
| NotModelled (what : string).

Inductive result (A : Type) : Type :=
| Ok (a : A)
| Raise (e : exn).

Arguments Ok {A} a.
Arguments Raise {A} e.

Definition bind {A B : Type} (r : result A) (k : A -> result B) : result B :=
  match r with
  | Ok a => k a
  | Raise e => Raise e
  end.

(** IEEE-754 binary64, most significant byte first. *)
Inductive float64 : Type :=
| F64 (b7 b6 b5 b4 b3 b2 b1 b0 : byte).

Definition f64_be (x : float64) : list byte :=
  match x with
  | F64 b7 b6 b5 b4 b3 b2 b1 b0 => [b7; b6; b5; b4; b3; b2; b1; b0]
  end.

(** The element types of arrays that matter to the store: what
    [frombuffer] produces ([Float64]) and narrower or integer ones a
    caller may hand in. *)
Inductive dtype : Type := Float64 | Float32 | Int64 | Int32 | Int8.

Definition itemsize (t : dtype) : nat :=
  match t with
  | Float64 | Int64 => 8
  | Float32 | Int32 => 4
  | Int8 => 1
  end%nat.

Record ndarray : Type := NdArray {
  arr_dtype : dtype;
  arr_shape : list nat;
  arr_data : list byte          (* the items in C order *)
}.

Definition arr_size (a : ndarray) : nat := fold_right Nat.mul 1%nat (arr_shape a).

Definition arr_wf (a : ndarray) : Prop :=
  List.length (arr_data a) = (itemsize (arr_dtype a) * arr_size a)%nat.

(** Keys of a [dict]: [str] or [bytes], the two kinds the unpacker admits. *)
Inductive pykey : Type :=
| KStr (s : string)
| KBytes (b : list byte).

Inductive pyval : Type :=
| PNone
| PBool (b : bool)
| PInt (z : Z)
| PFloat (x : float64)
| PStr (s : string)
| PBytes (b : list byte)
| PDict (d : list (pykey * pyval))
| PArray (a : ndarray).

Definition pydict : Type := list (pykey * pyval).

End Py.
Import Py.

Notation "x <- r ;; k" := (bind r (fun x => k))
  (at level 61, r at next level, right associativity).
Notation "' p <- r ;; k" := (bind r (fun x => let p := x in k))
  (at level 61, p pattern, r at next level, right associativity).

(** ** The element table *)

(** [ELEMENTS]: the placeholder ["\0"] followed by the 118 symbols. *)
Definition ELEMENTS : list string := [
  String Ascii.zero EmptyString;
        "H";  "He"; "Li"; "Be"; "B";  "C";  "N";  "O";  "F";  "Ne"; "Na";
  "Mg"; "Al"; "Si"; "P";  "S";  "Cl"; "Ar"; "K";  "Ca"; "Sc"; "Ti"; "V";
  "Cr"; "Mn"; "Fe"; "Co"; "Ni"; "Cu"; "Zn"; "Ga"; "Ge"; "As"; "Se"; "Br";
  "Kr"; "Rb"; "Sr"; "Y";  "Zr"; "Nb"; "Mo"; "Tc"; "Ru"; "Rh"; "Pd"; "Ag";
  "Cd"; "In"; "Sn"; "Sb"; "Te"; "I";  "Xe"; "Cs"; "Ba"; "La"; "Ce"; "Pr";
  "Nd"; "Pm"; "Sm"; "Eu"; "Gd"; "Tb"; "Dy"; "Ho"; "Er"; "Tm"; "Yb"; "Lu";
  "Hf"; "Ta"; "W";  "Re"; "Os"; "Ir"; "Pt"; "Au"; "Hg"; "Tl"; "Pb"; "Bi";
  "Po"; "At"; "Rn"; "Fr"; "Ra"; "Ac"; "Th"; "Pa"; "U";  "Np"; "Pu"; "Am";
  "Cm"; "Bk"; "Cf"; "Es"; "Fm"; "Md"; "No"; "Lr"; "Rf"; "Db"; "Sg"; "Bh";
  "Hs"; "Mt"; "Ds"; "Rg"; "Cn"; "Nh"; "Fl"; "Mc"; "Lv"; "Ts"; "Og" ].

(** The 118 canonical symbols: the table without its zeroth entry. *)
Definition SYMBOLS : list string := tl ELEMENTS.

(** [t.index(x)] of a tuple of strings: the first position holding [x]. *)
Fixpoint index_from (i : nat) (x : string) (t : list string) : option nat :=
  match t with
  | [] => None
  | y :: t' => if String.eqb y x then Some i else index_from (S i) x t'
  end.

Definition tuple_index (t : list string) (x : string) : result pyval :=
  match index_from 0 x t with
  | Some i => Ok (PInt (Z.of_nat i))
  | None => Raise (ValueError "tuple.index(x): x not in tuple")
  end.

(** [t[i]] of a tuple of strings: an index below zero counts from the end;
    a [bool] is an [int]; anything that is not an integer is a [TypeError]. *)
Definition tuple_getitem (t : list string) (i : pyval) : result pyval :=
  let at_ (z : Z) :=
    let n := Z.of_nat (List.length t) in
    let z' := if z <? 0 then z + n else z in
    if (z' <? 0) || (n <=? z') then Raise (IndexError "tuple index out of range")
    else match nth_error t (Z.to_nat z') with
         | Some s => Ok (PStr s)
         | None => Raise (IndexError "tuple index out of range")
         end in
  match i with
  | PInt z => at_ z
  | PBool b => at_ (if b then 1 else 0)
  | _ => Raise (TypeError "tuple indices must be integers or slices")
  end.

(** [element_number]: the position of a symbol in the table; whatever is
    not a [str] is returned as it is. *)
Definition element_number (elem : pyval) : result pyval :=
  match elem with
  | PStr s => tuple_index ELEMENTS s
  | _ => Ok elem
  end.

(** [element_symbol]: a [str] is returned as it is; anything else indexes
    the table. *)
Definition element_symbol (elem : pyval) : result pyval :=
  match elem with
  | PStr _ => Ok elem
  | _ => tuple_getitem ELEMENTS elem
  end.

(** ** Bytes and big-endian integers *)

Definition byte_val (b : byte) : Z := Z.of_N (Byte.to_N b).

Definition byte_of (z : Z) : byte :=
  match Byte.of_N (Z.to_N (z mod 256)) with
  | Some b => b
  | None => x00
  end.

(** The [k] low bytes of [z], most significant first (two's complement for
    a negative [z]). *)
Fixpoint be_bytes (k : nat) (z : Z) : list byte :=
  match k with
  | O => []
  | S k' => byte_of (z / 256 ^ Z.of_nat k') :: be_bytes k' z
  end.

Definition be_value (bs : list byte) : Z :=
  fold_left (fun acc b => acc * 256 + byte_val b) bs 0.

(** A big-endian field read as a signed integer. *)
Definition be_signed (bs : list byte) : Z :=
  let u := be_value bs in
  let m := 256 ^ Z.of_nat (List.length bs) in
  if u <? m / 2 then u else u - m.

(** ** MessagePack, as [Packer(use_bin_type=True)] writes it and
    [Unpacker(use_list=False, strict_map_key=True)] reads it

    The wire format is that of the MessagePack specification, with the
    packer's choice of the shortest integer and length headers.  Formats the
    packer never writes for the values of [pyval] (arrays, extension types,
    32-bit floats) are read as [NotModelled]; the unpacker's buffer limits
    and its UTF-8 validation of [str] payloads are not modelled. *)

Module Msgpack.

Definition int_out_of_range : exn := OverflowError "Integer value out of range".

Definition pack_int (z : Z) : result (list byte) :=
  if z <? - 2 ^ 63 then Raise int_out_of_range
  else if z <? - 2 ^ 31 then Ok (xd3 :: be_bytes 8 z)
  else if z <? - 2 ^ 15 then Ok (xd2 :: be_bytes 4 z)
  else if z <? - 2 ^ 7 then Ok (xd1 :: be_bytes 2 z)
  else if z <? - 2 ^ 5 then Ok (xd0 :: be_bytes 1 z)
  else if z <? 2 ^ 7 then Ok [byte_of z]
  else if z <? 2 ^ 8 then Ok (xcc :: be_bytes 1 z)
  else if z <? 2 ^ 16 then Ok (xcd :: be_bytes 2 z)
  else if z <? 2 ^ 32 then Ok (xce :: be_bytes 4 z)
  else if z <? 2 ^ 64 then Ok (xcf :: be_bytes 8 z)
  else Raise int_out_of_range.

Definition pack_str (s : string) : result (list byte) :=
  let raw := list_byte_of_string s in
  let n := Z.of_nat (List.length raw) in
  if n <? 32 then Ok (byte_of (160 + n) :: raw)
  else if n <? 2 ^ 8 then Ok (xd9 :: be_bytes 1 n ++ raw)
  else if n <? 2 ^ 16 then Ok (xda :: be_bytes 2 n ++ raw)
  else if n <? 2 ^ 32 then Ok (xdb :: be_bytes 4 n ++ raw)
  else Raise (ValueError "unicode string is too large").

Definition pack_bin (raw : list byte) : result (list byte) :=
  let n := Z.of_nat (List.length raw) in
  if n <? 2 ^ 8 then Ok (xc4 :: be_bytes 1 n ++ raw)
  else if n <? 2 ^ 16 then Ok (xc5 :: be_bytes 2 n ++ raw)
  else if n <? 2 ^ 32 then Ok (xc6 :: be_bytes 4 n ++ raw)
  else Raise (ValueError "bytes object is too large").

Definition pack_map_header (n : Z) : result (list byte) :=
  if n <? 16 then Ok [byte_of (128 + n)]
  else if n <? 2 ^ 16 then Ok (xde :: be_bytes 2 n)
  else if n <? 2 ^ 32 then Ok (xdf :: be_bytes 4 n)
  else Raise (ValueError "dict is too large").

Definition pack_key (k : pykey) : result (list byte) :=
  match k with
  | KStr s => pack_str s
  | KBytes b => pack_bin b
  end.

Section Items.
Variable pack_value : pyval -> result (list byte).

(** The items of a dict, key then value, in the dict's order. *)
Fixpoint pack_items (d : pydict) : result (list byte) :=
  match d with
  | [] => Ok []
  | (k, v) :: d' =>
      kb <- pack_key k ;;
      vb <- pack_value v ;;
      rest <- pack_items d' ;;
      Ok (kb ++ vb ++ rest)
  end.
End Items.

(** [Packer.pack(o)].  A [numpy.ndarray] is not a type the packer knows. *)
Fixpoint pack (o : pyval) : result (list byte) :=
  match o with
  | PNone => Ok [xc0]
  | PBool b => Ok [if b then xc3 else xc2]
  | PInt z => pack_int z
  | PFloat x => Ok (xcb :: f64_be x)
  | PStr s => pack_str s
  | PBytes b => pack_bin b
  | PDict d =>
      hdr <- pack_map_header (Z.of_nat (List.length d)) ;;
      body <- pack_items pack d ;;
      Ok (hdr ++ body)
  | PArray _ => Raise (TypeError "can not serialize 'numpy.ndarray' object")
  end.

Definition pykey_eqb (a b : pykey) : bool :=
  match a, b with
  | KStr s, KStr t => String.eqb s t
  | KBytes x, KBytes y =>
      String.eqb (string_of_list_byte x) (string_of_list_byte y)
  | _, _ => false
  end.

(** [d[k] = v]: an existing key keeps its place and takes the new value,
    a new key goes last. *)
Fixpoint dict_set (d : pydict) (k : pykey) (v : pyval) : pydict :=
  match d with
  | [] => [(k, v)]
  | (k', v') :: d' =>
      if pykey_eqb k' k then (k', v) :: d' else (k', v') :: dict_set d' k v
  end.

(** With [strict_map_key=True] a key is a [str] or a [bytes]. *)
Definition as_key (k : pyval) : result pykey :=
  match k with
  | PStr s => Ok (KStr s)
  | PBytes b => Ok (KBytes b)
  | _ => Raise (ValueError "type is not allowed for map key when strict_map_key=True")
  end.

Definition take (n : nat) (bs : list byte) : result (list byte * list byte) :=
  if (List.length bs <? n)%nat then Raise OutOfData
  else Ok (firstn n bs, skipn n bs).

(** A length or integer field of [k] bytes. *)
Definition take_be (k : nat) (bs : list byte) : result (Z * list byte) :=
  '(f, rest) <- take k bs ;; Ok (be_value f, rest).

Definition take_str (n : Z) (bs : list byte) : result (pyval * list byte) :=
  '(raw, rest) <- take (Z.to_nat n) bs ;; Ok (PStr (string_of_list_byte raw), rest).

Definition take_bin (n : Z) (bs : list byte) : result (pyval * list byte) :=
  '(raw, rest) <- take (Z.to_nat n) bs ;; Ok (PBytes raw, rest).

Definition take_f64 (bs : list byte) : result (pyval * list byte) :=
  match bs with
  | b7 :: b6 :: b5 :: b4 :: b3 :: b2 :: b1 :: b0 :: rest =>
      Ok (PFloat (F64 b7 b6 b5 b4 b3 b2 b1 b0), rest)
  | _ => Raise OutOfData
  end.

Definition take_uint (k : nat) (bs : list byte) : result (pyval * list byte) :=
  '(f, rest) <- take k bs ;; Ok (PInt (be_value f), rest).

Definition take_int (k : nat) (bs : list byte) : result (pyval * list byte) :=
  '(f, rest) <- take k bs ;; Ok (PInt (be_signed f), rest).

Section Entries.
Variable unpack_value : list byte -> result (pyval * list byte).

(** The [n] entries of a map, stored into a dict one by one. *)
Fixpoint entries (n : nat) (bs : list byte) (acc : pydict)
  : result (pyval * list byte) :=
  match n with
  | O => Ok (PDict acc, bs)
  | S n' =>
      '(k, bs1) <- unpack_value bs ;;
      '(v, bs2) <- unpack_value bs1 ;;
      key <- as_key k ;;
      entries n' bs2 (dict_set acc key v)
  end.

(** The object announced by the format byte [t]. *)
Definition unpack_tagged (t : Z) (rest : list byte) : result (pyval * list byte) :=
  if t <? 128 then Ok (PInt t, rest)
  else if t <? 144 then entries (Z.to_nat (t - 128)) rest []
  else if t <? 160 then Raise (NotModelled "array")
  else if t <? 192 then take_str (t - 160) rest
  else if t =? 192 then Ok (PNone, rest)
  else if t =? 193 then Raise FormatError
  else if t =? 194 then Ok (PBool false, rest)
  else if t =? 195 then Ok (PBool true, rest)
  else if t =? 196 then '(n, r) <- take_be 1 rest ;; take_bin n r
  else if t =? 197 then '(n, r) <- take_be 2 rest ;; take_bin n r
  else if t =? 198 then '(n, r) <- take_be 4 rest ;; take_bin n r
  else if t <? 202 then Raise (NotModelled "ext")
  else if t =? 202 then Raise (NotModelled "float 32")
  else if t =? 203 then take_f64 rest
  else if t =? 204 then take_uint 1 rest
  else if t =? 205 then take_uint 2 rest
  else if t =? 206 then take_uint 4 rest
  else if t =? 207 then take_uint 8 rest
  else if t =? 208 then take_int 1 rest
  else if t =? 209 then take_int 2 rest
  else if t =? 210 then take_int 4 rest
  else if t =? 211 then take_int 8 rest
  else if t <? 217 then Raise (NotModelled "fixext")
  else if t =? 217 then '(n, r) <- take_be 1 rest ;; take_str n r
  else if t =? 218 then '(n, r) <- take_be 2 rest ;; take_str n r
  else if t =? 219 then '(n, r) <- take_be 4 rest ;; take_str n r
  else if t <? 222 then Raise (NotModelled "array")
  else if t =? 222 then '(n, r) <- take_be 2 rest ;; entries (Z.to_nat n) r []
  else if t =? 223 then '(n, r) <- take_be 4 rest ;; entries (Z.to_nat n) r []
  else Ok (PInt (t - 256), rest).
End Entries.

(** One object off the front of [bs].  [fuel] bounds the nesting depth. *)
Fixpoint unpack (fuel : nat) (bs : list byte) {struct fuel}
  : result (pyval * list byte) :=
  match fuel with
  | O => Raise StackError
  | S fuel' =>
      match bs with
      | [] => Raise OutOfData
      | b :: rest => unpack_tagged (unpack fuel') (byte_val b) rest
      end
  end.

End Msgpack.

(** [pack_msg]: [Packer(use_bin_type=True).pack(msg)]. *)
Definition pack_msg (msg : pyval) : result (list byte) := Msgpack.pack msg.

(** [unpack_msg]: the first object of the stream; what follows it is left
    unread.  A nesting deeper than the stream is long cannot occur. *)
Definition unpack_msg (stream : list byte) : result pyval :=
  '(o, _) <- Msgpack.unpack (S (List.length stream)) stream ;; Ok o.

(** ** The species record *)

(** The annotation of a dataclass field. *)
Inductive annotation : Type := Astr | Aint | Afloat | Adict | Andarray.

(** The fields of [SpeciesData], in declaration order: name, annotation,
    and whether the field has the default [None]. *)
Definition FIELDS : list (string * annotation * bool) := [
  ("dataset", Astr, false); ("elem", Astr, false); ("natom", Aint, false);
  ("basis", Astr, false); ("nelec", Aint, false); ("nspin", Aint, false);
  ("nexc", Aint, false);
  ("cov_radii", Adict, false); ("vdw_radii", Adict, false); ("mass", Afloat, false);
  ("energy", Afloat, true); ("mo_energies", Andarray, true); ("mo_occs", Andarray, true);
  ("ip", Afloat, true); ("mu", Afloat, true); ("eta", Afloat, true);
  ("rs", Andarray, true);
  ("dens_up", Andarray, true); ("dens_dn", Andarray, true);
  ("dens_tot", Andarray, true); ("dens_mag", Andarray, true);
  ("d_dens_up", Andarray, true); ("d_dens_dn", Andarray, true);
  ("d_dens_tot", Andarray, true); ("d_dens_mag", Andarray, true);
  ("lapl_up", Andarray, true); ("lapl_dn", Andarray, true);
  ("lapl_tot", Andarray, true); ("lapl_mag", Andarray, true);
  ("ked_up", Andarray, true); ("ked_dn", Andarray, true);
  ("ked_tot", Andarray, true); ("ked_mag", Andarray, true) ].

Definition field_names : list string := map (fun f => fst (fst f)) FIELDS.

(** An instance of [Species]: the dataclass fields of [SpeciesData] and the
    two attributes [__init__] adds.  Python does not enforce the
    annotations, so every attribute holds a [pyval]. *)
Record Species : Type := Build_Species {
  dataset : pyval; elem : pyval; natom : pyval; basis : pyval;
  nelec : pyval; nspin : pyval; nexc : pyval;
  cov_radii : pyval; vdw_radii : pyval; mass : pyval;
  energy : pyval; mo_energies : pyval; mo_occs : pyval;
  ip : pyval; mu : pyval; eta : pyval;
  rs : pyval;
  dens_up : pyval; dens_dn : pyval; dens_tot : pyval; dens_mag : pyval;
  d_dens_up : pyval; d_dens_dn : pyval; d_dens_tot : pyval; d_dens_mag : pyval;
  lapl_up : pyval; lapl_dn : pyval; lapl_tot : pyval; lapl_mag : pyval;
  ked_up : pyval; ked_dn : pyval; ked_tot : pyval; ked_mag : pyval;
  (* set by [Species.__init__], not dataclass fields *)
  charge : pyval;
  mult : pyval
}.

(** [dataclasses.asdict(self)]: the dataclass fields, in order.  Its deep
    copy is the identity on immutable values. *)
Definition asdict (self : Species) : pydict := [
  (KStr "dataset", dataset self); (KStr "elem", elem self);
  (KStr "natom", natom self); (KStr "basis", basis self);
  (KStr "nelec", nelec self); (KStr "nspin", nspin self);
  (KStr "nexc", nexc self);
  (KStr "cov_radii", cov_radii self); (KStr "vdw_radii", vdw_radii self);
  (KStr "mass", mass self);
  (KStr "energy", energy self); (KStr "mo_energies", mo_energies self);
  (KStr "mo_occs", mo_occs self);
  (KStr "ip", ip self); (KStr "mu", mu self); (KStr "eta", eta self);
  (KStr "rs", rs self);
  (KStr "dens_up", dens_up self); (KStr "dens_dn", dens_dn self);
  (KStr "dens_tot", dens_tot self); (KStr "dens_mag", dens_mag self);
  (KStr "d_dens_up", d_dens_up self); (KStr "d_dens_dn", d_dens_dn self);
  (KStr "d_dens_tot", d_dens_tot self); (KStr "d_dens_mag", d_dens_mag self);
  (KStr "lapl_up", lapl_up self); (KStr "lapl_dn", lapl_dn self);
  (KStr "lapl_tot", lapl_tot self); (KStr "lapl_mag", lapl_mag self);
  (KStr "ked_up", ked_up self); (KStr "ked_dn", ked_dn self);
  (KStr "ked_tot", ked_tot self); (KStr "ked_mag", ked_mag self) ].

(** [Species.to_dict]. *)
Definition to_dict (self : Species) : pydict := asdict self.

(** Integers as Python sees them: a [bool] is an [int]. *)
Definition as_int (v : pyval) : option Z :=
  match v with
  | PInt z => Some z
  | PBool b => Some (if b then 1 else 0)
  | _ => None
  end.

Definition is_number (v : pyval) : bool :=
  match v with
  | PInt _ | PBool _ | PFloat _ | PArray _ => true
  | _ => false
  end.

(** [a - b] and [a + b] where both are integers; between other numbers the
    result is a float or an array, which the embedding does not compute;
    anything else is a [TypeError]. *)
Definition py_arith (op : Z -> Z -> Z) (a b : pyval) : result pyval :=
  match as_int a, as_int b with
  | Some x, Some y => Ok (PInt (op x y))
  | _, _ =>
      if is_number a && is_number b then Raise (NotModelled "float arithmetic")
      else Raise (TypeError "unsupported operand type(s)")
  end.

Definition py_sub : pyval -> pyval -> result pyval := py_arith Z.sub.
Definition py_add : pyval -> pyval -> result pyval := py_arith Z.add.

Fixpoint dict_get (d : pydict) (k : pykey) : option pyval :=
  match d with
  | [] => None
  | (k', v) :: d' => if Msgpack.pykey_eqb k' k then Some v else dict_get d' k
  end.

(** Binding of the keyword arguments of a call [Species( **kwargs )]. *)
Definition keyword_is_str (kv : pykey * pyval) : bool :=
  match fst kv with KStr _ => true | KBytes _ => false end.

Definition keyword_is_field (kv : pykey * pyval) : bool :=
  match fst kv with
  | KStr s => existsb (String.eqb s) field_names
  | KBytes _ => false
  end.

Definition required (kwargs : pydict) (name : string) : result pyval :=
  match dict_get kwargs (KStr name) with
  | Some v => Ok v
  | None => Raise (TypeError "__init__() missing required positional argument")
  end.

Definition optional (kwargs : pydict) (name : string) : pyval :=
  match dict_get kwargs (KStr name) with
  | Some v => v
  | None => PNone
  end.

(** [Species.__init__] called with keyword arguments: the dataclass
    initialiser, then the charge and the multiplicity. *)
Definition Species_init (kwargs : pydict) : result Species :=
  if negb (forallb keyword_is_str kwargs) then
    Raise (TypeError "keywords must be strings")
  else if negb (forallb keyword_is_field kwargs) then
    Raise (TypeError "__init__() got an unexpected keyword argument")
  else
    dataset_ <- required kwargs "dataset" ;;
    elem_ <- required kwargs "elem" ;;
    natom_ <- required kwargs "natom" ;;
    basis_ <- required kwargs "basis" ;;
    nelec_ <- required kwargs "nelec" ;;
    nspin_ <- required kwargs "nspin" ;;
    nexc_ <- required kwargs "nexc" ;;
    cov_radii_ <- required kwargs "cov_radii" ;;
    vdw_radii_ <- required kwargs "vdw_radii" ;;
    mass_ <- required kwargs "mass" ;;
    charge_ <- py_sub natom_ nelec_ ;;
    mult_ <- py_add nspin_ (PInt 1) ;;
    Ok {| dataset := dataset_; elem := elem_; natom := natom_; basis := basis_;
          nelec := nelec_; nspin := nspin_; nexc := nexc_;
          cov_radii := cov_radii_; vdw_radii := vdw_radii_; mass := mass_;
          energy := optional kwargs "energy";
          mo_energies := optional kwargs "mo_energies";
          mo_occs := optional kwargs "mo_occs";
          ip := optional kwargs "ip"; mu := optional kwargs "mu";
          eta := optional kwargs "eta";
          rs := optional kwargs "rs";
          dens_up := optional kwargs "dens_up"; dens_dn := optional kwargs "dens_dn";
          dens_tot := optional kwargs "dens_tot"; dens_mag := optional kwargs "dens_mag";
          d_dens_up := optional kwargs "d_dens_up";
          d_dens_dn := optional kwargs "d_dens_dn";
          d_dens_tot := optional kwargs "d_dens_tot";
          d_dens_mag := optional kwargs "d_dens_mag";
          lapl_up := optional kwargs "lapl_up"; lapl_dn := optional kwargs "lapl_dn";
          lapl_tot := optional kwargs "lapl_tot"; lapl_mag := optional kwargs "lapl_mag";
          ked_up := optional kwargs "ked_up"; ked_dn := optional kwargs "ked_dn";
          ked_tot := optional kwargs "ked_tot"; ked_mag := optional kwargs "ked_mag";
          charge := charge_; mult := mult_ |}.

(** ** Paths *)

Definition lower_ascii (c : ascii) : ascii :=
  let n := nat_of_ascii c in
  if ((65 <=? n) && (n <=? 90))%nat then ascii_of_nat (n + 32) else c.

(** [str.lower()], on the ASCII letters. *)
Fixpoint lower (s : string) : string :=
  match s with
  | EmptyString => EmptyString
  | String c s' => String (lower_ascii c) (lower s')
  end.

Definition startswith_sep (s : string) : bool :=
  match s with
  | String "/"%char _ => true
  | _ => false
  end.

Fixpoint endswith_sep (s : string) : bool :=
  match s with
  | EmptyString => false
  | String c EmptyString => Ascii.eqb c "/"%char
  | String _ s' => endswith_sep s'
  end.

(** [os.path.join(a, b)] of [posixpath]. *)
Definition join (a b : string) : string :=
  if startswith_sep b then b
  else if (String.length a =? 0)%nat || endswith_sep a then String.append a b
  else String.append a (String.append "/" b).

(** [str(int)]. *)
Definition str_of_int (z : Z) : string := NilZero.string_of_int (Z.to_int z).

(** A replacement field [{x}] of an f-string. *)
Definition format_field (x : pyval) : result string :=
  match x with
  | PStr s => Ok s
  | PInt z => Ok (str_of_int z)
  | PBool b => Ok (if b then "True" else "False")
  | PNone => Ok "None"
  | _ => Raise (NotModelled "repr")
  end.

(** [dataset.lower()]. *)
Definition str_lower (x : pyval) : result string :=
  match x with
  | PStr s => Ok (lower s)
  | PBytes _ => Raise (NotModelled "bytes.lower")
  | _ => Raise (AttributeError "object has no attribute 'lower'")
  end.

(** [Species._msgfile]. *)
Definition _msgfile (elem charge mult nexc dataset : pyval) (datapath : string)
  : result string :=
  d <- str_lower dataset ;;
  e <- format_field elem ;;
  c <- format_field charge ;;
  m <- format_field mult ;;
  k <- format_field nexc ;;
  Ok (join datapath
        (String.concat "" [d; "/db/"; e; "_"; c; "_"; m; "_"; k; ".msg"])).

(** [s.zfill(width)]: zeros on the left, after a sign. *)
Fixpoint zeros (n : nat) : string :=
  match n with
  | O => EmptyString
  | S n' => String "0"%char (zeros n')
  end.

Definition zfill (width : nat) (s : string) : string :=
  let pad := zeros (width - String.length s) in
  match s with
  | String c s' =>
      if Ascii.eqb c "-"%char || Ascii.eqb c "+"%char
      then String c (String.append pad s')
      else String.append pad s
  | EmptyString => pad
  end.

(** [s.split('_')[0]]. *)
Fixpoint before_underscore (s : string) : string :=
  match s with
  | EmptyString => EmptyString
  | String c s' =>
      if Ascii.eqb c "_"%char then EmptyString else String c (before_underscore s')
  end.

(** A replacement field [{x:02d}] or [{x:02}] of an integer. *)
Definition format_02 (x : pyval) : result string :=
  match as_int x with
  | Some z => Ok (zfill 2 (str_of_int z))
  | None => Raise (NotModelled "format of a non-integer")
  end.

(** [datafile]: the name of a raw data file.  [dataset = None] is the
    default of the argument; outside the "hci" family of datasets the
    prefix and the tag are never assigned. *)
Definition datafile (suffix : string) (elem charge mult nexc dataset : pyval)
  (datapath : string) : result string :=
  match dataset with
  | PNone => Raise (ValueError "Argument `dataset` cannot be unspecified")
  | PStr ds =>
      let suffix' :=
        String.append (match suffix with String "."%char _ => "" | _ => "_" end)
                      (lower suffix) in
      if String.eqb (before_underscore ds) "hci" then
        (number <- element_number elem ;;
         prefix <- format_field number ;;
         c <- format_field charge ;;
         m <- format_02 mult ;;
         k <- format_02 nexc ;;
         Ok (join datapath
               (String.concat ""
                  [lower ds; "/raw/"; zfill 3 prefix; "_";
                   "q"; zfill 3 c; "_m"; m; "_k"; k; "_sp_"; ds; suffix'])))
      else Raise (UnboundLocalError "prefix")
  | _ => Raise (AttributeError "object has no attribute 'split'")
  end.

(** ** Dump and load *)

(** The database files, by path.  Directories are taken to exist. *)
Definition filesystem : Type := string -> option (list byte).

Definition fs_write (fs : filesystem) (fn : string) (content : list byte) : filesystem :=
  fun p => if String.eqb p fn then Some content else fs p.

(** [_array_to_bytes]: the array's buffer when it is C-contiguous, its
    [tobytes()] otherwise; both are the items in C order. *)
Definition _array_to_bytes (array : ndarray) : pyval := PBytes (arr_data array).

(** [numpy.frombuffer(v)]: a one-dimensional [float64] view of the buffer. *)
Definition frombuffer (v : list byte) : result pyval :=
  if (List.length v mod 8 =? 0)%nat then
    Ok (PArray {| arr_dtype := Float64;
                  arr_shape := [(List.length v / 8)%nat];
                  arr_data := v |})
  else Raise (ValueError "buffer size must be a multiple of element size").

(** A dict comprehension [{k: f(v) for k, v in d.items()}]: the items are
    visited in order and stored one by one. *)
Fixpoint dict_comprehension_from (acc : pydict) (f : pyval -> result pyval)
  (d : pydict) : result pydict :=
  match d with
  | [] => Ok acc
  | (k, v) :: d' =>
      v' <- f v ;;
      dict_comprehension_from (Msgpack.dict_set acc k v') f d'
  end.

Definition dict_comprehension : (pyval -> result pyval) -> pydict -> result pydict :=
  dict_comprehension_from [].

Definition DEFAULT_DATASET : pyval := PStr "hci".

(** What [_dump] puts in place of a field value. *)
Definition to_msg (v : pyval) : result pyval :=
  match v with
  | PArray a => Ok (_array_to_bytes a)
  | _ => Ok v
  end.

(** What [load] puts in place of an unpacked value. *)
Definition from_msg (v : pyval) : result pyval :=
  match v with
  | PBytes b => frombuffer b
  | _ => Ok v
  end.

(** [Species._dump]: the file is opened for writing, hence created or
    emptied, before the message is packed. *)
Definition _dump (self : Species) (datapath : string) (fs : filesystem)
  : filesystem * result unit :=
  match _msgfile (elem self) (charge self) (mult self) (nexc self) (dataset self) datapath with
  | Raise e => (fs, Raise e)
  | Ok fn =>
      match dict_comprehension to_msg (asdict self) with
      | Raise e => (fs, Raise e)
      | Ok msg =>
          let opened := fs_write fs fn [] in
          match pack_msg (PDict msg) with
          | Raise e => (opened, Raise e)
          | Ok packed => (fs_write opened fn packed, Ok tt)
          end
      end
  end.

Definition items (msg : pyval) : result pydict :=
  match msg with
  | PDict d => Ok d
  | _ => Raise (AttributeError "object has no attribute 'items'")
  end.

(** [load]. *)
Definition load (elem charge mult nexc dataset : pyval) (datapath : string)
  (fs : filesystem) : result Species :=
  fn <- _msgfile elem charge mult nexc dataset datapath ;;
  stream <- match fs fn with
            | Some content => Ok content
            | None => Raise (FileNotFoundError fn)
            end ;;
  msg <- unpack_msg stream ;;
  d <- items msg ;;
  kwargs <- dict_comprehension from_msg d ;;
  Species_init kwargs.

(** ** Splines *)

(** The numerical libraries: how numpy reads the items of an array as
    numbers, and scipy's
    [interp1d(x, y, kind="cubic", copy=False, fill_value="extrapolate",
    assume_sorted=True)], which either raises or yields a function of the
    evaluation point.  Numbers are read as reals; the rounding, the dtypes
    and the overflow of the program's floating point are not modelled, and
    nothing is assumed of the interpolant: the properties below are about
    which call raises what, and hold whatever the libraries compute. *)
Class NumLib : Type := {
  array_values : ndarray -> list R;
  interp1d : list R -> list R -> result (R -> R)
}.

Inductive family : Type := Density | Derivative | Laplacian | Kinetic.
Inductive spin_variant : Type := Alpha | Beta | Total | Magnetization.

(** The selector string of a spin variant. *)
Definition selector (v : spin_variant) : string :=
  match v with
  | Alpha => "a"
  | Beta => "b"
  | Total => "ab"
  | Magnetization => "m"
  end.

(** The attribute holding a family's samples for a spin variant. *)
Definition channel (f : family) (v : spin_variant) : Species -> pyval :=
  match f, v with
  | Density, Alpha => dens_up | Density, Beta => dens_dn
  | Density, Total => dens_tot | Density, Magnetization => dens_mag
  | Derivative, Alpha => d_dens_up | Derivative, Beta => d_dens_dn
  | Derivative, Total => d_dens_tot | Derivative, Magnetization => d_dens_mag
  | Laplacian, Alpha => lapl_up | Laplacian, Beta => lapl_dn
  | Laplacian, Total => lapl_tot | Laplacian, Magnetization => lapl_mag
  | Kinetic, Alpha => ked_up | Kinetic, Beta => ked_dn
  | Kinetic, Total => ked_tot | Kinetic, Magnetization => ked_mag
  end.

(** [d[k]] of a dict keyed by strings. *)
Definition getitem (d : pydict) (k : string) : result pyval :=
  match dict_get d (KStr k) with
  | Some v => Ok v
  | None => Raise (KeyError k)
  end.

Definition fmt (before spin after : string) : string :=
  String.append before (String.append spin after).

Section Splines.

Context {lib : NumLib}.

(** The numbers of an array argument. *)
Definition as_array (v : pyval) : result (list R) :=
  match v with
  | PArray a => Ok (array_values a)
  | _ => Raise (NotModelled "array coercion")
  end.

(** [interp1d_log]: fitted to [log(y)], evaluated as [exp] of the fit.
    Read over the reals: [numpy.log] works in the dtype of its array and
    [numpy.exp] in double precision, with their rounding, underflow and
    overflow, which this reading leaves out. *)
Definition interp1d_log (x y : list R) : result (R -> R) :=
  g <- interp1d x (map ln y) ;;
  Ok (fun p => exp (g p)).

(** [cubic_interp]. *)
Definition cubic_interp (x y : pyval) (log : bool) : result (R -> R) :=
  xs <- as_array x ;;
  ys <- as_array y ;;
  (if log then interp1d_log else interp1d) xs ys.

(** The four spline methods.  [index = None] is the default of the
    orbital-index argument. *)
Definition dens_spline (self : Species) (points : list R) (spin : string)
  (index : option (list Z)) (log : bool) : result (list R) :=
  let spins := [(KStr "a", dens_up self); (KStr "b", dens_dn self);
                (KStr "ab", dens_tot self); (KStr "m", dens_mag self)] in
  spline <-
    match index with
    | None =>
        v <- getitem spins spin ;;
        match v with
        | PNone =>
            Raise (ValueError (fmt "Density spline for occupied `" spin
                                   "` spin-orbitals unavailable"))
        | _ => cubic_interp (rs self) v log
        end
    | Some _ =>
        Raise (NotImplementedError
                 "Desnity for a subset of orbitals is not supported yet.")
    end ;;
  Ok (map spline points).

Definition d_dens_spline (self : Species) (points : list R) (spin : string)
  (index : option (list Z)) (log : bool) : result (list R) :=
  let spins := [(KStr "a", d_dens_up self); (KStr "b", d_dens_dn self);
                (KStr "ab", d_dens_tot self); (KStr "m", d_dens_mag self)] in
  spline <-
    match index with
    | None =>
        v <- getitem spins spin ;;
        match v with
        | PNone =>
            Raise (ValueError (fmt "Density derivative spline for occupied `" spin
                                   "` spin-orbitals unavailable."))
        | _ => cubic_interp (rs self) v log
        end
    | Some _ =>
        Raise (NotImplementedError
                 "Desnity derivative for a subset of orbitals is not supported yet.")
    end ;;
  Ok (map spline points).

Definition ked_spline (self : Species) (points : list R) (spin : string)
  (index : option (list Z)) (log : bool) : result (list R) :=
  let spins := [(KStr "a", ked_up self); (KStr "b", ked_dn self);
                (KStr "ab", ked_tot self); (KStr "m", ked_mag self)] in
  spline <-
    match index with
    | None =>
        v <- getitem spins spin ;;
        match v with
        | PNone =>
            Raise (ValueError (fmt "Kinetic energy density for occupied `" spin
                                   "` spin-orbitals unavailable."))
        | _ => cubic_interp (rs self) v log
        end
    | Some _ =>
        Raise (NotImplementedError
                 "Kinetic energy density for a subset of orbitals is not supported yet.")
    end ;;
  Ok (map spline points).

Definition lapl_spline (self : Species) (points : list R) (spin : string)
  (index : option (list Z)) (log : bool) : result (list R) :=
  let spins := [(KStr "a", lapl_up self); (KStr "b", lapl_dn self);
                (KStr "ab", lapl_tot self); (KStr "m", lapl_mag self)] in
  spline <-
    match index with
    | None =>
        v <- getitem spins spin ;;
        match v with
        | PNone =>
            Raise (ValueError (fmt "Density laplacian for occupied `" spin
                                   "` spin-orbitals unavailable"))
        | _ => cubic_interp (rs self) v log
        end
    | Some _ =>
        Raise (NotImplementedError
                 "Desnity laplacian for a subset of orbitals is not supported yet.")
    end ;;
  Ok (map spline points).

(** The method of a family, and the default of its [log] argument. *)
Definition spline_method (f : family)
  : Species -> list R -> string -> option (list Z) -> bool -> result (list R) :=
  match f with
  | Density => dens_spline
  | Derivative => d_dens_spline
  | Laplacian => lapl_spline
  | Kinetic => ked_spline
  end.

Definition default_log (f : family) : bool :=
  match f with
  | Kinetic => true
  | _ => false
  end.

End Splines.

(** ** Well-formed values

    A Python dict has each key once; [dict_ok] says so of every dict inside
    a value.  [depth] is the nesting depth the unpacker needs. *)

Section DictItems.
Variable ok : pyval -> Prop.
Variable depth_of : pyval -> nat.

Fixpoint items_ok (d : pydict) : Prop :=
  match d with
  | [] => True
  | (_, v) :: d' => ok v /\ items_ok d'
  end.

Fixpoint items_depth (d : pydict) : nat :=
  match d with
  | [] => O
  | (_, v) :: d' => Nat.max (depth_of v) (items_depth d')
  end.
End DictItems.

Fixpoint dict_ok (v : pyval) : Prop :=
  match v with
  | PDict d => NoDup (map fst d) /\ items_ok dict_ok d
  | _ => True
  end.

Fixpoint depth (v : pyval) : nat :=
  match v with
  | PDict d => S (items_depth depth d)
  | _ => 1%nat
  end.

(** ** Values the packer accepts: integers of 64 bits, strings, byte
    strings and dicts of fewer than 2^32 bytes or items, no array. *)

Definition key_packable (k : pykey) : Prop :=
  match k with
  | KStr s => Z.of_nat (List.length (list_byte_of_string s)) < 2 ^ 32
  | KBytes b => Z.of_nat (List.length b) < 2 ^ 32
  end.

Section PackableItems.
Variable ok : pyval -> Prop.

Fixpoint items_packable (d : pydict) : Prop :=
  match d with
  | [] => True
  | (k, v) :: d' => key_packable k /\ ok v /\ items_packable d'
  end.
End PackableItems.

Fixpoint packable (v : pyval) : Prop :=
  match v with
  | PInt z => - 2 ^ 63 <= z < 2 ^ 64
  | PStr s => key_packable (KStr s)
  | PBytes b => key_packable (KBytes b)
  | PDict d => Z.of_nat (List.length d) < 2 ^ 32 /\ items_packable packable d
  | PArray _ => False
  | _ => True
  end.

(** ** Records as the dataclass declares them *)

(** A value of the annotated type. *)
Definition has_type (a : annotation) (v : pyval) : Prop :=
  match a, v with
  | Astr, PStr _ => True
  | Aint, PInt _ => True
  | Afloat, PFloat _ => True
  | Andarray, PArray _ => True
  | Adict, PDict _ => dict_ok v
  | _, _ => False
  end.

(** A field holds a value of its annotation, or [None] when that is its
    default. *)
Definition conforms (f : string * annotation * bool) (v : pyval) : Prop :=
  has_type (snd (fst f)) v \/ (snd f = true /\ v = PNone).

Definition well_typed (r : Species) : Prop :=
  Forall2 conforms FIELDS (map snd (asdict r)).

(** The buffer of an array holds a whole number of 8-byte items. *)
Definition whole_doubles (v : pyval) : Prop :=
  match v with
  | PArray a => (List.length (arr_data a) mod 8 = 0)%nat
  | PBytes b => (List.length b mod 8 = 0)%nat
  | _ => True
  end.

(** A one-dimensional double-precision array. *)
Definition double_vector (v : pyval) : Prop :=
  match v with
  | PArray a =>
      arr_dtype a = Float64 /\ (exists n, arr_shape a = [n]) /\ arr_wf a
  | PBytes _ => False
  | _ => True
  end.

(** The one-dimensional double-precision array over a buffer, of length
    byte-length/8. *)
Definition doubles_of (buffer : list byte) : pyval :=
  PArray {| arr_dtype := Float64;
            arr_shape := [(List.length buffer / 8)%nat];
            arr_data := buffer |}.

(** A field value as it comes back from the database: an array (and a
    [bytes]) as the array of doubles over the same bytes; anything else as
    it was. *)
Definition loaded (v : pyval) : pyval :=
  match v with
  | PArray a => doubles_of (arr_data a)
  | PBytes b => doubles_of b
  | _ => v
  end.

(** The attributes [__init__] derives, for integer counts. *)
Definition derived_ok (r : Species) : Prop :=
  exists a e n,
    as_int (natom r) = Some a /\ as_int (nelec r) = Some e /\
    as_int (nspin r) = Some n /\
    charge r = PInt (a - e) /\ mult r = PInt (n + 1).

(** ** Sample data

    Hydrogen in the default dataset: the radial grid 0.1, 0.5, 1.0, 2.0 and
    the total density 5.0, 1.0, 0.2, 0.01, as doubles in the byte order of
    the host (least significant byte first). *)

Definition le64 (bits : Z) : list byte := rev (be_bytes 8 bits).

Definition doubles (bits : list Z) : pyval :=
  PArray {| arr_dtype := Float64;
            arr_shape := [List.length bits];
            arr_data := flat_map le64 bits |}.

Definition sample_grid : pyval :=
  doubles [0x3FB999999999999A; 0x3FE0000000000000;
           0x3FF0000000000000; 0x4000000000000000].

Definition sample_density : pyval :=
  doubles [0x4014000000000000; 0x3FF0000000000000;
           0x3FC999999999999A; 0x3F847AE147AE147B].

(** Three single-precision items: twelve bytes. *)
Definition single_grid : pyval :=
  PArray {| arr_dtype := Float32;
            arr_shape := [3%nat];
            arr_data := [x00; x00; x00; x3f; x00; x00; x80; x3f; x00; x00; x00; x40] |}.

Definition hydrogen_with (grid density : pyval) : Species :=
  {| dataset := DEFAULT_DATASET; elem := PStr "H"; natom := PInt 1;
     basis := PStr "aug-cc-pvqz"; nelec := PInt 1; nspin := PInt 1; nexc := PInt 0;
     cov_radii := PDict [(KStr "cordero", PFloat (F64 x3f xe2 x9f xbe x76 xc8 xb4 x39));
                         (KStr "bragg", PNone)];
     vdw_radii := PDict [(KStr "bondi", PFloat (F64 x40 x02 x24 xdd x2f x1a x9f xbe))];
     mass := PFloat (F64 x40 x9c xb5 x7a xe1 x47 xae x14);
     energy := PFloat (F64 xbf xdf xff x2e x48 xe8 xa7 x1e);
     mo_energies := PNone; mo_occs := PNone;
     ip := PNone; mu := PNone; eta := PNone;
     rs := grid;
     dens_up := PNone; dens_dn := PNone; dens_tot := density; dens_mag := PNone;
     d_dens_up := PNone; d_dens_dn := PNone; d_dens_tot := PNone; d_dens_mag := PNone;
     lapl_up := PNone; lapl_dn := PNone; lapl_tot := PNone; lapl_mag := PNone;
     ked_up := PNone; ked_dn := PNone; ked_tot := PNone; ked_mag := PNone;
     charge := PInt 0; mult := PInt 2 |}.

Definition hydrogen : Species := hydrogen_with sample_grid sample_density.

Definition hydrogen_single : Species := hydrogen_with single_grid PNone.

Definition no_files : filesystem := fun _ => None.

(** * Properties *)

Arguments tuple_getitem : simpl never.
Arguments tuple_index : simpl never.

(** ** The element table *)

Fixpoint nodupb (l : list string) : bool :=
  match l with
  | [] => true
  | x :: l' => negb (existsb (String.eqb x) l') && nodupb l'
  end.

Lemma nodupb_sound (l : list string) : nodupb l = true -> NoDup l.
Proof.
  induction l as [|x l IH]; simpl; intros H; constructor.
  - apply andb_prop in H as [H _].
    intros Hin. apply negb_true_iff in H.
    assert (existsb (String.eqb x) l = true) as E.
    { apply existsb_exists. exists x. split; [exact Hin | apply String.eqb_refl]. }
    congruence.
  - apply andb_prop in H as [_ H]. auto.
Qed.

Lemma ELEMENTS_NoDup : NoDup ELEMENTS.
Proof. apply nodupb_sound. vm_compute. reflexivity. Qed.

Lemma ELEMENTS_length : List.length ELEMENTS = 119%nat.
Proof. reflexivity. Qed.

Lemma index_from_nth (t : list string) :
  forall i0 n s, NoDup t -> nth_error t n = Some s ->
    index_from i0 s t = Some (i0 + n)%nat.
Proof.
  induction t as [|y t IH]; intros i0 n s Hnd Hn.
  - destruct n; discriminate.
  - inversion Hnd as [|? ? Hy Hnd']; subst. destruct n as [|n]; simpl in *.
    + injection Hn as ->. rewrite String.eqb_refl. f_equal. lia.
    + destruct (String.eqb y s) eqn:E.
      * apply String.eqb_eq in E. subst. exfalso. apply Hy.
        eapply nth_error_In; eauto.
      * rewrite (IH (S i0) n s Hnd' Hn). f_equal. lia.
Qed.

Lemma index_from_found (t : list string) :
  forall i0 s i, index_from i0 s t = Some i ->
    (i0 <= i)%nat /\ nth_error t (i - i0) = Some s.
Proof.
  induction t as [|y t IH]; simpl; intros i0 s i H; [discriminate|].
  destruct (String.eqb y s) eqn:E.
  - injection H as <-. apply String.eqb_eq in E. subst.
    rewrite Nat.sub_diag. split; [lia | reflexivity].
  - apply IH in H as [Hle Hn]. split; [lia|].
    replace (i - i0)%nat with (S (i - S i0)) by lia. exact Hn.
Qed.

Lemma index_from_absent (t : list string) :
  forall i0 s, ~ In s t -> index_from i0 s t = None.
Proof.
  induction t as [|y t IH]; simpl; intros i0 s H; [reflexivity|].
  destruct (String.eqb y s) eqn:E.
  - apply String.eqb_eq in E. tauto.
  - apply IH. tauto.
Qed.

Lemma index_from_present (t : list string) :
  forall i0 s, In s t -> exists i, index_from i0 s t = Some i.
Proof.
  induction t as [|y t IH]; simpl; intros i0 s H; [tauto|].
  destruct (String.eqb y s) eqn:E; [eauto|].
  destruct H as [->|H]; [rewrite String.eqb_refl in E; discriminate|].
  apply IH; exact H.
Qed.

(** Indexing the table inside its range. *)
Lemma tuple_getitem_in_range (t : list string) (z : Z) (s : string) :
  0 <= z -> nth_error t (Z.to_nat z) = Some s ->
  tuple_getitem t (PInt z) = Ok (PStr s).
Proof.
  intros Hz Hn. unfold tuple_getitem. cbv zeta.
  assert (Z.to_nat z < List.length t)%nat as Hlt
    by (apply nth_error_Some; congruence).
  assert ((z <? 0) = false) as E0 by (apply Z.ltb_ge; lia).
  assert ((Z.of_nat (List.length t) <=? z) = false) as E1 by (apply Z.leb_gt; lia).
  rewrite E0. rewrite E0, E1. simpl. rewrite Hn. reflexivity.
Qed.

Lemma tuple_getitem_out_of_range (t : list string) (z : Z) :
  z < - Z.of_nat (List.length t) \/ Z.of_nat (List.length t) <= z ->
  tuple_getitem t (PInt z) = Raise (IndexError "tuple index out of range").
Proof.
  intros Hz. unfold tuple_getitem. cbv zeta.
  destruct (z <? 0) eqn:E0.
  - apply Z.ltb_lt in E0.
    assert ((z + Z.of_nat (List.length t) <? 0) = true) as E1 by (apply Z.ltb_lt; lia).
    rewrite E1. reflexivity.
  - assert ((Z.of_nat (List.length t) <=? z) = true) as E1
      by (apply Z.leb_le; apply Z.ltb_ge in E0; lia).
    rewrite E0, E1. reflexivity.
Qed.

Lemma SYMBOLS_in_ELEMENTS (s : string) : In s SYMBOLS -> In s ELEMENTS.
Proof. intros H. right. exact H. Qed.

Lemma placeholder_not_symbol : ~ In (String Ascii.zero EmptyString) SYMBOLS.
Proof.
  pose proof ELEMENTS_NoDup as H. inversion H; assumption.
Qed.

(** A number of the table, then the number of its symbol. *)
Lemma symbol_then_number (z : Z) :
  0 <= z <= 118 ->
  exists s, element_symbol (PInt z) = Ok (PStr s) /\
            element_number (PStr s) = Ok (PInt z).
Proof.
  intros Hz.
  destruct (nth_error ELEMENTS (Z.to_nat z)) as [t|] eqn:Hn.
  2:{ apply nth_error_None in Hn. rewrite ELEMENTS_length in Hn. lia. }
  assert (0 <= z) as Hz0 by lia.
  exists t. unfold element_symbol, element_number.
  rewrite (tuple_getitem_in_range _ _ _ Hz0 Hn). split; [reflexivity|].
  unfold tuple_index.
  rewrite (index_from_nth _ 0 _ _ ELEMENTS_NoDup Hn). rewrite Nat.add_0_l.
  rewrite Z2Nat.id by lia. reflexivity.
Qed.

(** An entry of the table, then the symbol of its number. *)
Lemma number_then_symbol (s : string) :
  In s ELEMENTS ->
  exists z, 0 <= z <= 118 /\ element_number (PStr s) = Ok (PInt z) /\
            element_symbol (PInt z) = Ok (PStr s).
Proof.
  intros Hs.
  destruct (index_from_present ELEMENTS 0 s Hs) as [i Hi].
  exists (Z.of_nat i).
  unfold element_number, element_symbol, tuple_index. rewrite Hi.
  apply index_from_found in Hi as [_ Hn]. rewrite Nat.sub_0_r in Hn.
  assert (i < List.length ELEMENTS)%nat as Hlt by (apply nth_error_Some; congruence).
  rewrite ELEMENTS_length in Hlt.
  split; [lia|]. split; [reflexivity|].
  apply tuple_getitem_in_range; [lia|]. rewrite Nat2Z.id. exact Hn.
Qed.

(** C4.  For every atomic number [z] in 1..118 the symbol of [z] has number
    [z], and for every canonical symbol [s] the number of [s] has symbol
    [s]: [element_number] and [element_symbol] are mutual inverses over the
    valid range. *)
Theorem element_table_bijection (z : Z) (s : string)
  (Hz : 1 <= z <= 118) (Hs : In s SYMBOLS) :
  (sym <- element_symbol (PInt z) ;; element_number sym) = Ok (PInt z) /\
  (num <- element_number (PStr s) ;; element_symbol num) = Ok (PStr s).
Proof.
  split.
  - destruct (symbol_then_number z) as (t & Hsym & Hnum); [lia|].
    rewrite Hsym. cbn [bind]. exact Hnum.
  - destruct (number_then_symbol s (SYMBOLS_in_ELEMENTS s Hs)) as (n & _ & Hnum & Hsym).
    rewrite Hnum. cbn [bind]. exact Hsym.
Qed.

Lemma element_table_bijection_witness :
  (sym <- element_symbol (PInt 26) ;; element_number sym) = Ok (PInt 26) /\
  (num <- element_number (PStr "Fe") ;; element_symbol num) = Ok (PStr "Fe").
Proof.
  apply (element_table_bijection 26 "Fe").
  - lia.
  - unfold SYMBOLS, ELEMENTS. simpl. do 25 right. left. reflexivity.
Defined.

(** C3, as the code has it.  An integer above 118 or below -119 has no
    symbol ([IndexError]); a string that is not an entry of the table has no
    number ([ValueError]); the number 0 stands for the placeholder entry,
    which is none of the 118 symbols, and no symbol has the number 0. *)
Theorem element_lookup_errors (z : Z) (s : string)
  (Hz : z < -119 \/ 118 < z) (Hs : ~ In s ELEMENTS) :
  element_symbol (PInt z) = Raise (IndexError "tuple index out of range") /\
  element_number (PStr s) = Raise (ValueError "tuple.index(x): x not in tuple") /\
  element_symbol (PInt 0) = Ok (PStr (String Ascii.zero EmptyString)) /\
  ~ In (String Ascii.zero EmptyString) SYMBOLS /\
  (forall t, In t SYMBOLS -> element_number (PStr t) <> Ok (PInt 0)).
Proof.
  repeat split.
  - unfold element_symbol. apply tuple_getitem_out_of_range.
    rewrite ELEMENTS_length. lia.
  - unfold element_number, tuple_index.
    rewrite (index_from_absent _ _ _ Hs). reflexivity.
  - exact placeholder_not_symbol.
  - intros t Ht E. unfold element_number, tuple_index in E.
    destruct (index_from 0 t ELEMENTS) as [i|] eqn:Hi; [|discriminate].
    injection E as E. assert (i = 0%nat) by lia. subst i.
    apply index_from_found in Hi as [_ Hn]. simpl in Hn. injection Hn as <-.
    exact (placeholder_not_symbol Ht).
Qed.

Lemma element_lookup_errors_witness :
  element_symbol (PInt 119) = Raise (IndexError "tuple index out of range") /\
  element_number (PStr "Xx") = Raise (ValueError "tuple.index(x): x not in tuple").
Proof.
  assert (~ In "Xx" ELEMENTS) as Hs.
  { intros Hin. apply (In_nth_error ELEMENTS) in Hin as [n Hn].
    assert (index_from 0 "Xx" ELEMENTS = Some (0 + n)%nat) as E
      by (apply index_from_nth; [exact ELEMENTS_NoDup | exact Hn]).
    vm_compute in E. discriminate. }
  assert (119 < -119 \/ 118 < 119) as Hz by lia.
  pose proof (element_lookup_errors 119 "Xx" Hz Hs) as H.
  split; [exact (proj1 H) | exact (proj1 (proj2 H))].
Defined.

(** Where the claim C3 fails: the integer -1 lies outside 0..118 and has
    the symbol of element 118, and the placeholder string, which is none of
    the 118 symbols, has the number 0. *)
Lemma element_symbol_wraps_negative :
  ~ (0 <= -1 <= 118) /\
  element_symbol (PInt (-1)) = Ok (PStr "Og") /\
  ~ In (String Ascii.zero EmptyString) SYMBOLS /\
  element_number (PStr (String Ascii.zero EmptyString)) = Ok (PInt 0).
Proof.
  split; [lia|]. split; [reflexivity|]. split; [exact placeholder_not_symbol|].
  reflexivity.
Qed.

(** ** Bytes and big-endian fields *)

Lemma byte_val_range (b : byte) : 0 <= byte_val b < 256.
Proof.
  unfold byte_val. pose proof (Byte.to_N_bounded b). lia.
Qed.

Lemma byte_val_of (z : Z) : byte_val (byte_of z) = z mod 256.
Proof.
  unfold byte_val, byte_of.
  pose proof (Z.mod_pos_bound z 256 ltac:(lia)) as Hm.
  destruct (Byte.of_N (Z.to_N (z mod 256))) as [b|] eqn:E.
  - apply Byte.to_of_N in E. rewrite E. lia.
  - apply Byte.of_N_None_iff in E. lia.
Qed.

Lemma byte_of_val (b : byte) : byte_of (byte_val b) = b.
Proof.
  unfold byte_of. pose proof (byte_val_range b) as Hb.
  rewrite Z.mod_small by exact Hb.
  unfold byte_val. rewrite N2Z.id, Byte.of_to_N. reflexivity.
Qed.

Lemma byte_val_of_small (z : Z) : 0 <= z < 256 -> byte_val (byte_of z) = z.
Proof. intros H. rewrite byte_val_of. apply Z.mod_small; exact H. Qed.

Lemma be_bytes_length (k : nat) (z : Z) : List.length (be_bytes k z) = k.
Proof. induction k; simpl; congruence. Qed.

Lemma be_fold (k : nat) : forall z acc,
  fold_left (fun a b => a * 256 + byte_val b) (be_bytes k z) acc
  = acc * 256 ^ Z.of_nat k + z mod 256 ^ Z.of_nat k.
Proof.
  induction k as [|k IH]; intros z acc.
  - simpl. rewrite Z.mod_1_r. lia.
  - cbn [be_bytes fold_left]. rewrite IH, byte_val_of.
    rewrite Nat2Z.inj_succ, Z.pow_succ_r by lia.
    assert (0 < 256 ^ Z.of_nat k) as Hp by (apply Z.pow_pos_nonneg; lia).
    rewrite (Z.mul_comm 256 (256 ^ Z.of_nat k)).
    rewrite (Z.rem_mul_r z (256 ^ Z.of_nat k) 256) by lia.
    ring.
Qed.

Lemma be_value_bytes (k : nat) (z : Z) :
  be_value (be_bytes k z) = z mod 256 ^ Z.of_nat k.
Proof. unfold be_value. rewrite be_fold. lia. Qed.

Lemma be_value_unsigned (k : nat) (z : Z) :
  0 <= z < 256 ^ Z.of_nat k -> be_value (be_bytes k z) = z.
Proof. intros H. rewrite be_value_bytes. apply Z.mod_small; exact H. Qed.

Lemma be_signed_bytes (k : nat) (z : Z) :
  - (256 ^ Z.of_nat k / 2) <= z < 256 ^ Z.of_nat k / 2 ->
  2 * (256 ^ Z.of_nat k / 2) = 256 ^ Z.of_nat k ->
  be_signed (be_bytes k z) = z.
Proof.
  intros Hz Heven. unfold be_signed.
  rewrite be_value_bytes, be_bytes_length.
  set (m := 256 ^ Z.of_nat k) in *.
  assert (0 < m) as Hm by (apply Z.pow_pos_nonneg; lia).
  destruct (Z_lt_le_dec z 0) as [Hneg|Hpos].
  - assert (z mod m = z + m) as ->.
    { symmetry. apply (Z.mod_unique z m (-1)); lia. }
    destruct (z + m <? m / 2) eqn:E; [apply Z.ltb_lt in E|]; lia.
  - rewrite Z.mod_small by lia.
    destruct (z <? m / 2) eqn:E; [|apply Z.ltb_ge in E]; lia.
Qed.

Module MsgpackFacts.
Import Msgpack.

Lemma take_app (n : nat) (l rest : list byte) :
  List.length l = n -> take n (l ++ rest) = Ok (l, rest).
Proof.
  intros H. unfold take. rewrite length_app.
  assert ((List.length l + List.length rest <? n)%nat = false) as ->
    by (apply Nat.ltb_ge; lia).
  subst n. rewrite firstn_app, Nat.sub_diag, firstn_all. simpl.
  rewrite app_nil_r, skipn_app, Nat.sub_diag, skipn_all. reflexivity.
Qed.

Lemma take_be_app (k : nat) (z : Z) (rest : list byte) :
  0 <= z < 256 ^ Z.of_nat k ->
  take_be k (be_bytes k z ++ rest) = Ok (z, rest).
Proof.
  intros H. unfold take_be.
  rewrite take_app by apply be_bytes_length. simpl.
  rewrite be_value_unsigned by exact H. reflexivity.
Qed.

Lemma take_str_app (s : string) (rest : list byte) :
  take_str (Z.of_nat (List.length (list_byte_of_string s)))
           (list_byte_of_string s ++ rest) = Ok (PStr s, rest).
Proof.
  unfold take_str. rewrite Nat2Z.id, take_app by reflexivity. simpl.
  rewrite string_of_list_byte_of_string. reflexivity.
Qed.

Lemma take_bin_app (raw rest : list byte) :
  take_bin (Z.of_nat (List.length raw)) (raw ++ rest) = Ok (PBytes raw, rest).
Proof.
  unfold take_bin. rewrite Nat2Z.id, take_app by reflexivity. reflexivity.
Qed.

End MsgpackFacts.

(** ** MessagePack: what the packer writes, the unpacker reads back *)

(** Induction on a value with the hypothesis for every value stored in a
    dict. *)
Lemma pyval_nested_ind (P : pyval -> Prop)
  (HNone : P PNone) (HBool : forall b, P (PBool b)) (HInt : forall z, P (PInt z))
  (HFloat : forall x, P (PFloat x)) (HStr : forall s, P (PStr s))
  (HBytes : forall b, P (PBytes b))
  (HDict : forall d, Forall (fun kv => P (snd kv)) d -> P (PDict d))
  (HArray : forall a, P (PArray a)) :
  forall v, P v.
Proof.
  fix IH 1.
  intros [| b | z | x | s | b | d | a];
    [ apply HNone | apply HBool | apply HInt | apply HFloat | apply HStr
    | apply HBytes | | apply HArray ].
  apply HDict. induction d as [|[k v] d IHd]; constructor.
  - simpl. apply IH.
  - exact IHd.
Qed.

Module UnpackFacts.
Import Msgpack MsgpackFacts.

Ltac settle_cmp :=
  repeat match goal with
    | |- context [?a <? ?b] =>
        first [ replace (a <? b) with true by (symmetry; apply Z.ltb_lt; lia)
              | replace (a <? b) with false by (symmetry; apply Z.ltb_ge; lia) ];
        cbv iota
    | |- context [?a =? ?b] =>
        first [ replace (a =? b) with true by (symmetry; apply Z.eqb_eq; lia)
              | replace (a =? b) with false by (symmetry; apply Z.eqb_neq; lia) ];
        cbv iota
    end.

Section Tags.
Variable u : list byte -> result (pyval * list byte).

Lemma tagged_fixint t r : 0 <= t < 128 -> unpack_tagged u t r = Ok (PInt t, r).
Proof. intros H. unfold unpack_tagged. settle_cmp. reflexivity. Qed.

Lemma tagged_negfix t r :
  224 <= t < 256 -> unpack_tagged u t r = Ok (PInt (t - 256), r).
Proof. intros H. unfold unpack_tagged. settle_cmp. reflexivity. Qed.

Lemma tagged_fixmap t r :
  128 <= t < 144 -> unpack_tagged u t r = entries u (Z.to_nat (t - 128)) r [].
Proof. intros H. unfold unpack_tagged. settle_cmp. reflexivity. Qed.

Lemma tagged_fixstr t r :
  160 <= t < 192 -> unpack_tagged u t r = take_str (t - 160) r.
Proof. intros H. unfold unpack_tagged. settle_cmp. reflexivity. Qed.
Lemma tagged_bin8 r :
  unpack_tagged u (byte_val xc4) r = ('(n, r') <- take_be 1 r ;; take_bin n r').
Proof. reflexivity. Qed.
Lemma tagged_bin16 r :
  unpack_tagged u (byte_val xc5) r = ('(n, r') <- take_be 2 r ;; take_bin n r').
Proof. reflexivity. Qed.
Lemma tagged_bin32 r :
  unpack_tagged u (byte_val xc6) r = ('(n, r') <- take_be 4 r ;; take_bin n r').
Proof. reflexivity. Qed.
Lemma tagged_str8 r :
  unpack_tagged u (byte_val xd9) r = ('(n, r') <- take_be 1 r ;; take_str n r').
Proof. reflexivity. Qed.
Lemma tagged_str16 r :
  unpack_tagged u (byte_val xda) r = ('(n, r') <- take_be 2 r ;; take_str n r').
Proof. reflexivity. Qed.
Lemma tagged_str32 r :
  unpack_tagged u (byte_val xdb) r = ('(n, r') <- take_be 4 r ;; take_str n r').
Proof. reflexivity. Qed.
Lemma tagged_map16 r :
  unpack_tagged u (byte_val xde) r
  = ('(n, r') <- take_be 2 r ;; entries u (Z.to_nat n) r' []).
Proof. reflexivity. Qed.
Lemma tagged_map32 r :
  unpack_tagged u (byte_val xdf) r
  = ('(n, r') <- take_be 4 r ;; entries u (Z.to_nat n) r' []).
Proof. reflexivity. Qed.
Lemma tagged_uint8 r : unpack_tagged u (byte_val xcc) r = take_uint 1 r.
Proof. reflexivity. Qed.
Lemma tagged_uint16 r : unpack_tagged u (byte_val xcd) r = take_uint 2 r.
Proof. reflexivity. Qed.
Lemma tagged_uint32 r : unpack_tagged u (byte_val xce) r = take_uint 4 r.
Proof. reflexivity. Qed.
Lemma tagged_uint64 r : unpack_tagged u (byte_val xcf) r = take_uint 8 r.
Proof. reflexivity. Qed.
Lemma tagged_int8 r : unpack_tagged u (byte_val xd0) r = take_int 1 r.
Proof. reflexivity. Qed.
Lemma tagged_int16 r : unpack_tagged u (byte_val xd1) r = take_int 2 r.
Proof. reflexivity. Qed.
Lemma tagged_int32 r : unpack_tagged u (byte_val xd2) r = take_int 4 r.
Proof. reflexivity. Qed.
Lemma tagged_int64 r : unpack_tagged u (byte_val xd3) r = take_int 8 r.
Proof. reflexivity. Qed.
Lemma tagged_f64 r : unpack_tagged u (byte_val xcb) r = take_f64 r.
Proof. reflexivity. Qed.
Lemma tagged_nil r : unpack_tagged u (byte_val xc0) r = Ok (PNone, r).
Proof. reflexivity. Qed.
Lemma tagged_false r : unpack_tagged u (byte_val xc2) r = Ok (PBool false, r).
Proof. reflexivity. Qed.
Lemma tagged_true r : unpack_tagged u (byte_val xc3) r = Ok (PBool true, r).
Proof. reflexivity. Qed.
End Tags.

Lemma unpack_cons f b r :
  unpack (S f) (b :: r) = unpack_tagged (unpack f) (byte_val b) r.
Proof. reflexivity. Qed.

Lemma Ok_inj {A : Type} (a b : A) : Ok a = Ok b -> a = b.
Proof. intros H. injection H as H. exact H. Qed.

Ltac norm_pow E :=
  repeat match type of E with
         | context [2 ^ ?k] =>
             let v := eval vm_compute in (2 ^ k) in change (2 ^ k) with v in E
         end.

Ltac split_cases H :=
  repeat match type of H with
         | (if ?a <? ?b then _ else _) = _ =>
             let E := fresh "E" in
             destruct (a <? b) eqn:E;
             [apply Z.ltb_lt in E | apply Z.ltb_ge in E]; norm_pow E
         end;
  try discriminate H; apply Ok_inj in H; subst;
  rewrite <- app_comm_cons, unpack_cons.

Lemma pow256_1 : 256 ^ Z.of_nat 1 = 256. Proof. reflexivity. Qed.
Lemma pow256_2 : 256 ^ Z.of_nat 2 = 65536. Proof. reflexivity. Qed.
Lemma pow256_4 : 256 ^ Z.of_nat 4 = 4294967296. Proof. reflexivity. Qed.
Lemma pow256_8 : 256 ^ Z.of_nat 8 = 18446744073709551616. Proof. reflexivity. Qed.

Lemma take_uint_app k z rest :
  0 <= z < 256 ^ Z.of_nat k ->
  take_uint k (be_bytes k z ++ rest) = Ok (PInt z, rest).
Proof.
  intros H. unfold take_uint. rewrite take_app by apply be_bytes_length.
  simpl. rewrite be_value_unsigned by exact H. reflexivity.
Qed.

Lemma take_int_app k h z rest :
  2 * h = 256 ^ Z.of_nat k -> - h <= z < h ->
  take_int k (be_bytes k z ++ rest) = Ok (PInt z, rest).
Proof.
  intros E H.
  assert (256 ^ Z.of_nat k / 2 = h) as Eh
    by (rewrite <- E, Z.mul_comm; apply Z.div_mul; lia).
  rewrite <- Eh in H, E. unfold take_int. rewrite take_app by apply be_bytes_length.
  simpl. rewrite be_signed_bytes by assumption. reflexivity.
Qed.

Lemma unpack_pack_int z bs f rest :
  pack_int z = Ok bs -> unpack (S f) (bs ++ rest) = Ok (PInt z, rest).
Proof.
  unfold pack_int. intros H. split_cases H.
  - rewrite tagged_int64. apply (take_int_app 8 9223372036854775808); [reflexivity | lia].
  - rewrite tagged_int32. apply (take_int_app 4 2147483648); [reflexivity | lia].
  - rewrite tagged_int16. apply (take_int_app 2 32768); [reflexivity | lia].
  - rewrite tagged_int8. apply (take_int_app 1 128); [reflexivity | lia].
  - rewrite byte_val_of. rewrite app_nil_l.
    destruct (Z_lt_le_dec z 0) as [Hn|Hp].
    + assert (z mod 256 = z + 256) as ->
        by (symmetry; apply (Z.mod_unique z 256 (-1)); lia).
      rewrite tagged_negfix by lia. do 3 f_equal. lia.
    + rewrite Z.mod_small by lia. apply tagged_fixint. lia.
  - rewrite tagged_uint8. apply take_uint_app. rewrite pow256_1. lia.
  - rewrite tagged_uint16. apply take_uint_app. rewrite pow256_2. lia.
  - rewrite tagged_uint32. apply take_uint_app. rewrite pow256_4. lia.
  - rewrite tagged_uint64. apply take_uint_app. rewrite pow256_8. lia.
Qed.

Lemma unpack_pack_str s bs f rest :
  pack_str s = Ok bs -> unpack (S f) (bs ++ rest) = Ok (PStr s, rest).
Proof.
  unfold pack_str. cbv zeta. intros H. split_cases H.
  - rewrite byte_val_of_small by lia.
    rewrite tagged_fixstr by lia.
    replace (160 + Z.of_nat (List.length (list_byte_of_string s)) - 160)
      with (Z.of_nat (List.length (list_byte_of_string s))) by lia.
    apply take_str_app.
  - rewrite tagged_str8, <- app_assoc, take_be_app by (rewrite pow256_1; lia).
    apply take_str_app.
  - rewrite tagged_str16, <- app_assoc, take_be_app by (rewrite pow256_2; lia).
    apply take_str_app.
  - rewrite tagged_str32, <- app_assoc, take_be_app by (rewrite pow256_4; lia).
    apply take_str_app.
Qed.

Lemma unpack_pack_bin raw bs f rest :
  pack_bin raw = Ok bs -> unpack (S f) (bs ++ rest) = Ok (PBytes raw, rest).
Proof.
  unfold pack_bin. cbv zeta. intros H. split_cases H.
  - rewrite tagged_bin8, <- app_assoc, take_be_app by (rewrite pow256_1; lia).
    apply take_bin_app.
  - rewrite tagged_bin16, <- app_assoc, take_be_app by (rewrite pow256_2; lia).
    apply take_bin_app.
  - rewrite tagged_bin32, <- app_assoc, take_be_app by (rewrite pow256_4; lia).
    apply take_bin_app.
Qed.

(** *** Keys and dicts *)

Lemma pykey_eqb_eq (a b : pykey) : pykey_eqb a b = true <-> a = b.
Proof.
  destruct a as [s|x], b as [t|y]; simpl; split; intros H;
    try discriminate; try (injection H as ->).
  - apply String.eqb_eq in H. congruence.
  - apply String.eqb_refl.
  - apply String.eqb_eq in H. f_equal.
    rewrite <- (list_byte_of_string_of_list_byte x),
            <- (list_byte_of_string_of_list_byte y).
    congruence.
  - apply String.eqb_refl.
Qed.

Lemma pykey_eqb_neq (a b : pykey) : pykey_eqb a b = false <-> a <> b.
Proof.
  split; intros H.
  - intros E. apply pykey_eqb_eq in E. congruence.
  - destruct (pykey_eqb a b) eqn:E; [|reflexivity].
    apply pykey_eqb_eq in E. contradiction.
Qed.

Lemma dict_set_fresh (d : pydict) (k : pykey) (v : pyval) :
  ~ In k (map fst d) -> dict_set d k v = d ++ [(k, v)].
Proof.
  induction d as [|[k' v'] d IH]; simpl; intros H; [reflexivity|].
  assert (pykey_eqb k' k = false) as -> by (apply pykey_eqb_neq; tauto).
  rewrite IH by tauto. reflexivity.
Qed.

(** A key as the unpacker first reads it. *)
Definition key_value (k : pykey) : pyval :=
  match k with
  | KStr s => PStr s
  | KBytes b => PBytes b
  end.

Lemma as_key_value (k : pykey) : as_key (key_value k) = Ok k.
Proof. destruct k; reflexivity. Qed.

Lemma unpack_pack_key k bs f rest :
  pack_key k = Ok bs -> unpack (S f) (bs ++ rest) = Ok (key_value k, rest).
Proof.
  destruct k; simpl; [apply unpack_pack_str | apply unpack_pack_bin].
Qed.

(** What reading back a value requires of the unpacker [u]. *)
Definition reads_back (u : list byte -> result (pyval * list byte)) (v : pyval) : Prop :=
  forall bs rest, pack v = Ok bs -> u (bs ++ rest) = Ok (v, rest).

Lemma entries_pack_items (f : nat) (d : pydict) :
  Forall (fun kv => reads_back (unpack (S f)) (snd kv)) d ->
  forall body acc rest,
    pack_items pack d = Ok body ->
    NoDup (map fst (acc ++ d)) ->
    entries (unpack (S f)) (List.length d) (body ++ rest) acc
    = Ok (PDict (acc ++ d), rest).
Proof.
  induction d as [|[k v] d IH]; intros Hall body acc rest Hp Hnd.
  - simpl in Hp. apply Ok_inj in Hp. subst body.
    simpl. rewrite app_nil_r. reflexivity.
  - inversion Hall as [|? ? Hv Hall']; subst.
    cbn [snd] in Hv. unfold reads_back in Hv.
    cbn [pack_items] in Hp.
    destruct (pack_key k) as [kb|] eqn:Ek; [|discriminate].
    destruct (pack v) as [vb|] eqn:Ev; [|discriminate].
    destruct (pack_items pack d) as [rb|] eqn:Er; [|discriminate].
    simpl in Hp. apply Ok_inj in Hp. subst body.
    cbn [List.length entries].
    rewrite <- !app_assoc.
    rewrite (unpack_pack_key k kb f _ Ek). cbn [bind].
    rewrite (Hv vb _ eq_refl). cbn [bind].
    rewrite as_key_value. cbn [bind].
    assert (~ In k (map fst acc)) as Hfresh.
    { rewrite map_app in Hnd. simpl in Hnd.
      apply NoDup_remove_2 in Hnd. intros Hin. apply Hnd.
      apply in_or_app. left. exact Hin. }
    rewrite dict_set_fresh by exact Hfresh.
    rewrite (IH Hall' rb (acc ++ [(k, v)]) rest eq_refl).
    + rewrite <- app_assoc. reflexivity.
    + rewrite <- app_assoc. exact Hnd.
Qed.

Lemma items_depth_le (d : pydict) (n : nat) :
  (items_depth depth d <= n)%nat ->
  Forall (fun kv => (depth (snd kv) <= n)%nat) d.
Proof.
  induction d as [|[k v] d IH]; simpl; intros H; constructor.
  - simpl. lia.
  - apply IH. lia.
Qed.

Lemma items_ok_Forall (d : pydict) :
  items_ok dict_ok d -> Forall (fun kv => dict_ok (snd kv)) d.
Proof.
  induction d as [|[k v] d IH]; simpl; intros H; constructor; tauto.
Qed.

Lemma depth_pos (v : pyval) : (1 <= depth v)%nat.
Proof. destruct v; simpl; lia. Qed.

(** The unpacker reads back what the packer wrote, whatever follows it,
    given fuel for the nesting of the value. *)
Lemma unpack_pack (v : pyval) :
  forall bs, pack v = Ok bs -> dict_ok v ->
  forall f rest, (depth v <= f)%nat -> unpack f (bs ++ rest) = Ok (v, rest).
Proof.
  induction v as [| b | z | x | s | b | d IHd | a] using pyval_nested_ind;
    intros bs Hp Hok f rest Hf;
    (destruct f as [|f]; [simpl in Hf; lia|]).
  - simpl in Hp. apply Ok_inj in Hp. subst. simpl app.
    rewrite unpack_cons. apply tagged_nil.
  - simpl in Hp. apply Ok_inj in Hp. subst. simpl app.
    rewrite unpack_cons. destruct b; [apply tagged_true | apply tagged_false].
  - apply unpack_pack_int. exact Hp.
  - simpl in Hp. apply Ok_inj in Hp. subst. destruct x. simpl app.
    rewrite unpack_cons, tagged_f64. reflexivity.
  - apply unpack_pack_str. exact Hp.
  - apply unpack_pack_bin. exact Hp.
  - cbn [pack] in Hp.
    destruct (pack_map_header (Z.of_nat (List.length d))) as [hdr|] eqn:Eh;
      [|discriminate].
    destruct (pack_items pack d) as [body|] eqn:Eb; [|discriminate].
    simpl in Hp. apply Ok_inj in Hp. subst bs.
    destruct Hok as [Hnd Hok]. simpl in Hf.
    assert (forall r, entries (unpack f) (List.length d) (body ++ r) []
                      = Ok (PDict d, r)) as Hentries.
    { intros r. destruct d as [|kv d'].
      - simpl in Eb. apply Ok_inj in Eb. subst. reflexivity.
      - destruct f as [|f].
        { destruct kv as [k0 v0]. simpl in Hf.
          pose proof (depth_pos v0). lia. }
        apply (entries_pack_items f (kv :: d')); [|exact Eb|exact Hnd].
        apply Forall_forall. intros kv' Hin bs' r' Hp'.
        rewrite Forall_forall in IHd.
        apply (IHd kv' Hin bs' Hp').
        + pose proof (items_ok_Forall _ Hok) as Hall.
          rewrite Forall_forall in Hall. exact (Hall kv' Hin).
        + pose proof (items_depth_le (kv :: d') (S f) ltac:(lia)) as Hall.
          rewrite Forall_forall in Hall. exact (Hall kv' Hin). }
    rewrite <- app_assoc.
    unfold pack_map_header in Eh. split_cases Eh.
    + rewrite byte_val_of_small by lia.
      rewrite tagged_fixmap by lia.
      replace (128 + Z.of_nat (List.length d) - 128)
        with (Z.of_nat (List.length d)) by lia.
      rewrite Nat2Z.id, app_nil_l. apply Hentries.
    + rewrite tagged_map16, take_be_app by (rewrite pow256_2; lia).
      cbn [bind]. rewrite Nat2Z.id. apply Hentries.
    + rewrite tagged_map32, take_be_app by (rewrite pow256_4; lia).
      cbn [bind]. rewrite Nat2Z.id. apply Hentries.
  - discriminate.
Qed.

Lemma pack_key_nonempty k bs : pack_key k = Ok bs -> (1 <= List.length bs)%nat.
Proof.
  destruct k; simpl; [unfold pack_str | unfold pack_bin]; cbv zeta; intros H;
    repeat match type of H with
           | (if ?c then _ else _) = _ => destruct c
           end;
    try discriminate; apply Ok_inj in H; subst; simpl; lia.
Qed.

(** A packed value is at least as long as it is deep. *)
Lemma pack_length_depth (v : pyval) :
  forall bs, pack v = Ok bs -> (depth v <= List.length bs)%nat.
Proof.
  induction v as [| b | z | x | s | b | d IHd | a] using pyval_nested_ind;
    intros bs Hp.
  - apply Ok_inj in Hp. subst. simpl. lia.
  - apply Ok_inj in Hp. subst. simpl. lia.
  - simpl in Hp. unfold pack_int in Hp.
    repeat match type of Hp with
           | (if ?c then _ else _) = _ => destruct c
           end;
      try discriminate; apply Ok_inj in Hp; subst; simpl; lia.
  - apply Ok_inj in Hp. subst. simpl. lia.
  - apply (pack_key_nonempty (KStr s)). exact Hp.
  - apply (pack_key_nonempty (KBytes b)). exact Hp.
  - cbn [pack] in Hp.
    destruct (pack_map_header (Z.of_nat (List.length d))) as [hdr|] eqn:Eh;
      [|discriminate].
    destruct (pack_items pack d) as [body|] eqn:Eb; [|discriminate].
    simpl in Hp. apply Ok_inj in Hp. subst bs.
    assert (1 <= List.length hdr)%nat as Hh.
    { unfold pack_map_header in Eh.
      repeat match type of Eh with
             | (if ?c then _ else _) = _ => destruct c
             end;
        try discriminate; apply Ok_inj in Eh; subst; simpl; lia. }
    assert (items_depth depth d <= List.length body)%nat as Hb.
    { clear Eh Hh hdr. revert body Eb.
      induction d as [|[k v] d IH]; intros body Eb; simpl; [lia|].
      inversion IHd as [|? ? Hv Hd]; subst. simpl in Hv.
      cbn [pack_items] in Eb.
      destruct (pack_key k) as [kb|]; [|discriminate].
      destruct (pack v) as [vb|] eqn:Ev; [|discriminate].
      destruct (pack_items pack d) as [rb|] eqn:Er; [|discriminate].
      simpl in Eb. apply Ok_inj in Eb. subst body.
      specialize (Hv vb eq_refl). specialize (IH Hd rb eq_refl).
      rewrite !length_app. lia. }
    simpl. rewrite length_app. lia.
  - discriminate.
Qed.

End UnpackFacts.

(** [unpack_msg] inverts [pack_msg] on every value whose dicts are proper. *)
Lemma unpack_pack_msg (msg : pyval) (packed : list byte) :
  pack_msg msg = Ok packed -> dict_ok msg -> unpack_msg packed = Ok msg.
Proof.
  intros Hp Hok. unfold unpack_msg.
  pose proof (UnpackFacts.pack_length_depth msg packed Hp) as Hd.
  rewrite <- (app_nil_r packed) at 2.
  rewrite (UnpackFacts.unpack_pack msg packed Hp Hok) by lia.
  reflexivity.
Qed.

(** ** The record codec *)

Module CodecFacts.
Import Msgpack UnpackFacts.

(** A comprehension over a dict with distinct keys maps its values. *)
Lemma dict_comprehension_from_map (f : pyval -> result pyval)
  (h g : pyval -> pyval) (d : pydict) :
  forall acc,
    NoDup (map fst acc ++ map fst d) ->
    Forall (fun kv => f (h (snd kv)) = Ok (g (snd kv))) d ->
    dict_comprehension_from acc f (map (fun kv => (fst kv, h (snd kv))) d)
    = Ok (acc ++ map (fun kv => (fst kv, g (snd kv))) d).
Proof.
  induction d as [|[k v] d IH]; intros acc Hnd Hall; simpl.
  - rewrite app_nil_r. reflexivity.
  - inversion Hall as [|? ? Hv Hall']; subst. simpl in Hv. rewrite Hv.
    cbn [bind].
    assert (~ In k (map fst acc)) as Hfresh.
    { simpl in Hnd. apply NoDup_remove_2 in Hnd. intros Hin. apply Hnd.
      apply in_or_app. left. exact Hin. }
    rewrite dict_set_fresh by exact Hfresh.
    rewrite IH.
    + rewrite <- app_assoc. reflexivity.
    + rewrite map_app, <- app_assoc. exact Hnd.
    + exact Hall'.
Qed.

Lemma dict_comprehension_map (f : pyval -> result pyval)
  (h g : pyval -> pyval) (d : pydict) :
  NoDup (map fst d) ->
  Forall (fun kv => f (h (snd kv)) = Ok (g (snd kv))) d ->
  dict_comprehension f (map (fun kv => (fst kv, h (snd kv))) d)
  = Ok (map (fun kv => (fst kv, g (snd kv))) d).
Proof.
  intros Hnd Hall. unfold dict_comprehension.
  rewrite (dict_comprehension_from_map f h g d []); auto.
Qed.

Lemma map_snd_id (d : pydict) : map (fun kv => (fst kv, snd kv)) d = d.
Proof. induction d as [|[k v] d IH]; simpl; congruence. Qed.

(** What [_dump] hands to the packer for a field value. *)
Definition wire (v : pyval) : pyval :=
  match v with
  | PArray a => PBytes (arr_data a)
  | _ => v
  end.

Lemma to_msg_wire (v : pyval) : to_msg v = Ok (wire v).
Proof. destruct v; reflexivity. Qed.

Lemma asdict_keys (r : Species) : map fst (asdict r) = map KStr field_names.
Proof. reflexivity. Qed.

Lemma field_names_NoDup : NoDup (map KStr field_names).
Proof.
  apply Injective_map_NoDup.
  - intros x y H. injection H as H. exact H.
  - apply nodupb_sound. vm_compute. reflexivity.
Qed.

Lemma asdict_NoDup (r : Species) : NoDup (map fst (asdict r)).
Proof. rewrite asdict_keys. exact field_names_NoDup. Qed.

Lemma map_fst_values (g : pyval -> pyval) (d : pydict) :
  map fst (map (fun kv => (fst kv, g (snd kv))) d) = map fst d.
Proof. rewrite map_map. reflexivity. Qed.

(** The message of [_dump]. *)
Lemma dump_msg (r : Species) :
  dict_comprehension to_msg (asdict r)
  = Ok (map (fun kv => (fst kv, wire (snd kv))) (asdict r)).
Proof.
  rewrite <- (map_snd_id (asdict r)) at 1.
  apply (dict_comprehension_map to_msg (fun v => v) wire); [apply asdict_NoDup|].
  apply Forall_forall. intros kv _. apply to_msg_wire.
Qed.

Lemma conforms_wire_ok (f : string * annotation * bool) (v : pyval) :
  conforms f v -> dict_ok (wire v).
Proof.
  destruct f as [[name a] opt]. unfold conforms. simpl.
  intros [H|[_ ->]]; [|exact I].
  destruct a, v; simpl in *; try exact I; try contradiction; exact H.
Qed.

Lemma from_msg_wire (v : pyval) :
  whole_doubles v -> from_msg (wire v) = Ok (loaded v).
Proof.
  intros Hw.
  destruct v; try reflexivity;
    unfold wire, from_msg, frombuffer, whole_doubles, loaded, _array_to_bytes in *;
    rewrite Hw; reflexivity.
Qed.

Lemma double_vector_loaded (v : pyval) :
  double_vector v -> whole_doubles v /\ loaded v = v.
Proof.
  intros Hd. destruct v as [| | | | | b | |a];
    try (split; [exact I | reflexivity]); [contradiction|].
  destruct a as [t sh data].
  unfold double_vector, whole_doubles, loaded, doubles_of in *.
  cbn [arr_dtype arr_shape arr_data] in *.
  destruct Hd as (-> & [n ->] & Hwf). unfold arr_wf, arr_size in Hwf.
  cbn [arr_dtype arr_shape arr_data itemsize fold_right] in Hwf.
  rewrite Nat.mul_1_r in Hwf. rewrite Hwf. split.
  - rewrite Nat.mul_comm. apply Nat.Div0.mod_mul.
  - rewrite Nat.mul_comm, Nat.div_mul by lia. reflexivity.
Qed.

End CodecFacts.

Module InitFacts.
Import CodecFacts.

(** Construction from the fields of a record, each passed through [g]. *)
Lemma Species_init_asdict (r : Species) (g : pyval -> pyval) (a e n : Z) :
  g (natom r) = PInt a -> g (nelec r) = PInt e -> g (nspin r) = PInt n ->
  exists r',
    Species_init (map (fun kv => (fst kv, g (snd kv))) (asdict r)) = Ok r' /\
    asdict r' = map (fun kv => (fst kv, g (snd kv))) (asdict r) /\
    charge r' = PInt (a - e) /\ mult r' = PInt (n + 1).
Proof.
  intros Ha He Hn. unfold Species_init.
  set (kwargs := map (fun kv => (fst kv, g (snd kv))) (asdict r)).
  assert (forallb keyword_is_str kwargs = true) as -> by reflexivity.
  assert (forallb keyword_is_field kwargs = true) as -> by reflexivity.
  cbn [negb].
  assert (required kwargs "natom" = Ok (g (natom r))) as E1 by reflexivity.
  assert (required kwargs "nelec" = Ok (g (nelec r))) as E2 by reflexivity.
  assert (required kwargs "nspin" = Ok (g (nspin r))) as E3 by reflexivity.
  assert (required kwargs "dataset" = Ok (g (dataset r))) as -> by reflexivity.
  assert (required kwargs "elem" = Ok (g (elem r))) as -> by reflexivity.
  assert (required kwargs "basis" = Ok (g (basis r))) as -> by reflexivity.
  assert (required kwargs "nexc" = Ok (g (nexc r))) as -> by reflexivity.
  assert (required kwargs "cov_radii" = Ok (g (cov_radii r))) as -> by reflexivity.
  assert (required kwargs "vdw_radii" = Ok (g (vdw_radii r))) as -> by reflexivity.
  assert (required kwargs "mass" = Ok (g (mass r))) as -> by reflexivity.
  rewrite E1, E2, E3, Ha, He, Hn. cbn [bind py_sub py_add py_arith as_int].
  eexists. split; [reflexivity|]. split; [|split; reflexivity].
  subst kwargs. unfold asdict. cbn [map fst snd].
  rewrite Ha, He, Hn. reflexivity.
Qed.

End InitFacts.

(** ** The packer is total on the values it accepts *)

Module PackFacts.
Import Msgpack UnpackFacts.

Ltac settle_ltb :=
  repeat match goal with
         | |- context [?a <? ?b] =>
             first [ replace (a <? b) with true by (symmetry; apply Z.ltb_lt; lia)
                   | destruct (a <? b) ]
         end.

Lemma pack_key_total (k : pykey) : key_packable k -> exists bs, pack_key k = Ok bs.
Proof.
  destruct k as [s|b]; simpl; intros H; norm_pow H.
  - unfold pack_str. cbv zeta.
    change (2 ^ 32) with 4294967296. settle_ltb; eauto.
  - unfold pack_bin. cbv zeta.
    change (2 ^ 32) with 4294967296. settle_ltb; eauto.
Qed.

Lemma pack_int_total (z : Z) : - 2 ^ 63 <= z < 2 ^ 64 -> exists bs, pack_int z = Ok bs.
Proof.
  intros H. unfold pack_int.
  assert ((z <? - 2 ^ 63) = false) as -> by (apply Z.ltb_ge; lia).
  assert ((z <? 2 ^ 64) = true) as E by (apply Z.ltb_lt; lia).
  repeat match goal with
         | |- context [if ?a <? ?b then _ else _] =>
             lazymatch b with
             | 2 ^ 64 => rewrite E
             | _ => destruct (a <? b)
             end
         end; eauto.
Qed.

Lemma pack_total (v : pyval) : packable v -> exists bs, pack v = Ok bs.
Proof.
  induction v as [| b | z | x | s | b | d IHd | a] using pyval_nested_ind;
    intros Hp; try (simpl; eauto; fail).
  - apply pack_int_total. exact Hp.
  - apply (pack_key_total (KStr s)). exact Hp.
  - apply (pack_key_total (KBytes b)). exact Hp.
  - destruct Hp as [Hn Hitems]. cbn [pack].
    assert (exists hdr, pack_map_header (Z.of_nat (List.length d)) = Ok hdr) as [hdr ->].
    { unfold pack_map_header. norm_pow Hn.
      change (2 ^ 32) with 4294967296. settle_ltb; eauto. }
    cbn [bind].
    assert (exists body, pack_items pack d = Ok body) as [body ->].
    { clear Hn hdr. induction d as [|[k v] d IH]; [simpl; eauto|].
      inversion IHd as [|? ? Hv Hd]; subst. cbn [snd] in Hv.
      destruct Hitems as (Hk & Hpv & Hrest).
      destruct (pack_key_total k Hk) as [kb Ek].
      destruct (Hv Hpv) as [vb Ev].
      destruct (IH Hd Hrest) as [rb Er].
      cbn [pack_items]. rewrite Ek, Ev, Er. cbn [bind]. eauto. }
    cbn [bind]. eauto.
  - contradiction.
Qed.

End PackFacts.

(** ** Dump, then load *)

Module RoundTrip.
Import Msgpack UnpackFacts CodecFacts InitFacts.

Lemma Forall2_right {A B : Type} (P : A -> B -> Prop) (Q : B -> Prop)
  (l1 : list A) (l2 : list B) :
  Forall2 P l1 l2 -> (forall a b, P a b -> Q b) -> Forall Q l2.
Proof. intros H HPQ. induction H; constructor; eauto. Qed.

Lemma items_ok_of_Forall (d : pydict) :
  Forall (fun kv => dict_ok (snd kv)) d -> items_ok dict_ok d.
Proof. induction 1 as [|[k v] d Hv _ IH]; simpl; auto. Qed.

Lemma well_typed_counts (r : Species) :
  well_typed r ->
  exists a e n, natom r = PInt a /\ nelec r = PInt e /\ nspin r = PInt n.
Proof.
  unfold well_typed, asdict, FIELDS. cbn [map snd]. intros H.
  do 6 (apply Forall2_cons_iff in H; destruct H as [? H]).
  repeat match goal with
         | Hc : conforms (_, Aint, false) ?v |- _ =>
             destruct Hc as [Hc|[Hc _]]; [|discriminate Hc];
             destruct v; try contradiction
         end.
  eauto 7.
Qed.

(** The message [_dump] packs is a proper dict. *)
Lemma dump_msg_ok (r : Species) :
  well_typed r ->
  dict_ok (PDict (map (fun kv => (fst kv, wire (snd kv))) (asdict r))).
Proof.
  intros Ht. split.
  - rewrite map_fst_values. apply asdict_NoDup.
  - apply items_ok_of_Forall. rewrite Forall_map. cbn [snd].
    apply (Forall2_right _ (fun v => dict_ok (wire v))) in Ht;
      [|exact conforms_wire_ok].
    rewrite Forall_map in Ht. exact Ht.
Qed.

Lemma loaded_counts (r : Species) (a e n : Z) :
  natom r = PInt a -> nelec r = PInt e -> nspin r = PInt n ->
  loaded (natom r) = PInt a /\ loaded (nelec r) = PInt e /\
  loaded (nspin r) = PInt n.
Proof. intros -> -> ->. repeat split. Qed.

Lemma well_typed_key (r : Species) :
  well_typed r ->
  exists ds el k, dataset r = PStr ds /\ elem r = PStr el /\ nexc r = PInt k.
Proof.
  unfold well_typed, asdict, FIELDS. cbn [map snd]. intros H.
  do 7 (apply Forall2_cons_iff in H; destruct H as [? H]).
  repeat match goal with
         | Hc : conforms (_, _, false) ?v |- _ =>
             destruct Hc as [Hc|[Hc _]]; [|discriminate Hc];
             destruct v; try contradiction
         end.
  eauto 7.
Qed.

Lemma field_keys_packable : Forall key_packable (map KStr field_names).
Proof. repeat (constructor; [vm_compute; reflexivity|]). constructor. Qed.

Lemma items_packable_of_Forall (d : pydict) :
  Forall (fun kv => key_packable (fst kv) /\ packable (snd kv)) d ->
  items_packable packable d.
Proof. induction 1 as [|[k v] d [Hk Hv] _ IH]; simpl; auto. Qed.

(** A record typed as the dataclass declares, with its derived attributes
    and values the packer accepts, is dumped. *)
Lemma dump_succeeds (r : Species) (datapath : string) (fs : filesystem) :
  well_typed r -> derived_ok r ->
  Forall (fun v => packable (wire v)) (map snd (asdict r)) ->
  exists fs', _dump r datapath fs = (fs', Ok tt).
Proof.
  intros Ht (a & e & n & _ & _ & _ & Hc & Hm) Hp.
  destruct (well_typed_key r Ht) as (ds & el & k & Hds & Hel & Hk).
  unfold _dump. rewrite Hds, Hel, Hk, Hc, Hm. cbn [_msgfile str_lower format_field bind].
  rewrite dump_msg.
  destruct (PackFacts.pack_total
              (PDict (map (fun kv => (fst kv, wire (snd kv))) (asdict r))))
    as [packed Ep].
  - split.
    + rewrite length_map. vm_compute. reflexivity.
    + apply items_packable_of_Forall. rewrite Forall_map. cbn [fst snd].
      apply Forall_and.
      * rewrite <- Forall_map, asdict_keys. exact field_keys_packable.
      * rewrite Forall_map in Hp. exact Hp.
  - unfold pack_msg. rewrite Ep. eauto.
Qed.

End RoundTrip.

(** C1, as the code has it.  For every species record typed as the
    dataclass declares whose arrays each hold a whole number of 8-byte
    items, loading the record that was dumped succeeds and reproduces every
    persisted field: scalars and radius dictionaries are equal, every array
    comes back as the one-dimensional double-precision array over the same
    bytes, of length byte-length/8, and the derived attributes are computed
    anew.  A record whose arrays are one-dimensional double-precision
    arrays is reproduced field for field. *)
Theorem dump_load_roundtrip (r : Species) (datapath : string) (fs fs' : filesystem)
  (Htyped : well_typed r)
  (Hwhole : Forall whole_doubles (map snd (asdict r)))
  (Hdump : _dump r datapath fs = (fs', Ok tt)) :
  exists r',
    load (elem r) (charge r) (mult r) (nexc r) (dataset r) datapath fs' = Ok r' /\
    asdict r' = map (fun kv => (fst kv, loaded (snd kv))) (asdict r) /\
    derived_ok r' /\
    (Forall double_vector (map snd (asdict r)) -> asdict r' = asdict r).
Proof.
  unfold _dump in Hdump.
  destruct (_msgfile (elem r) (charge r) (mult r) (nexc r) (dataset r) datapath)
    as [fn|] eqn:Efn; [|discriminate].
  rewrite CodecFacts.dump_msg in Hdump.
  destruct (pack_msg (PDict (map (fun kv => (fst kv, CodecFacts.wire (snd kv))) (asdict r))))
    as [packed|] eqn:Ep; [|discriminate].
  injection Hdump as <-.
  destruct (RoundTrip.well_typed_counts r Htyped) as (a & e & n & Ha & He & Hn).
  destruct (RoundTrip.loaded_counts r a e n Ha He Hn) as (La & Le & Ln).
  destruct (InitFacts.Species_init_asdict r loaded a e n La Le Ln)
    as (r' & Hinit & Hfields & Hc & Hm).
  exists r'. split; [|split; [exact Hfields|split]].
  - unfold load. rewrite Efn. cbn [bind]. unfold fs_write.
    rewrite String.eqb_refl. cbn [bind].
    rewrite (unpack_pack_msg _ _ Ep (RoundTrip.dump_msg_ok r Htyped)).
    cbn [bind items].
    rewrite (CodecFacts.dict_comprehension_map from_msg CodecFacts.wire loaded).
    + cbn [bind]. exact Hinit.
    + apply CodecFacts.asdict_NoDup.
    + rewrite Forall_map in Hwhole. revert Hwhole. apply Forall_impl.
      intros kv Hw. apply CodecFacts.from_msg_wire. exact Hw.
  - exists a, e, n.
    assert (natom r' = PInt a /\ nelec r' = PInt e /\ nspin r' = PInt n)
      as (Na & Ne & Nn).
    { assert (map snd (asdict r') = map loaded (map snd (asdict r))) as E
        by (rewrite Hfields, !map_map; reflexivity).
      unfold asdict in E. cbn [map snd] in E.
      injection E as _ _ E2 _ E4 E5 _. rewrite E2, E4, E5. auto. }
    rewrite Na, Ne, Nn. simpl. auto.
  - intros Hvec. rewrite Hfields.
    rewrite <- (CodecFacts.map_snd_id (asdict r)) at 2.
    apply map_ext_in. intros kv Hin. f_equal.
    rewrite Forall_map in Hvec. rewrite Forall_forall in Hvec.
    apply CodecFacts.double_vector_loaded. apply Hvec. exact Hin.
Qed.


Lemma hydrogen_well_typed (grid density : pyval) :
  has_type Andarray grid \/ grid = PNone ->
  has_type Andarray density \/ density = PNone ->
  well_typed (hydrogen_with grid density).
Proof.
  intros Hg Hd. unfold well_typed, hydrogen_with, asdict, FIELDS. cbn [map snd].
  repeat (apply Forall2_cons;
          [first [ left; exact I
                 | right; split; reflexivity
                 | idtac ] |]);
    try apply Forall2_nil.
  - left. simpl. split; [|tauto].
    repeat constructor; simpl; intuition discriminate.
  - left. simpl. split; [|tauto].
    repeat constructor; simpl; intuition discriminate.
  - destruct Hg as [Hg| ->]; [left; exact Hg | right; split; reflexivity].
  - destruct Hd as [Hd| ->]; [left; exact Hd | right; split; reflexivity].
Defined.

Lemma dump_load_roundtrip_witness :
  exists r',
    load (PStr "H") (PInt 0) (PInt 2) (PInt 0) (PStr "hci") "data"
         (fst (_dump hydrogen "data" no_files)) = Ok r' /\
    asdict r' = asdict hydrogen.
Proof.
  assert (well_typed hydrogen) as Ht
    by (apply hydrogen_well_typed; left; exact I).
  assert (Forall whole_doubles (map snd (asdict hydrogen))) as Hw
    by (repeat constructor).
  assert (_dump hydrogen "data" no_files
          = (fst (_dump hydrogen "data" no_files), Ok tt)) as Hd
    by (vm_compute; reflexivity).
  destruct (dump_load_roundtrip hydrogen "data" no_files _ Ht Hw Hd)
    as (r' & Hl & _ & _ & Heq).
  exists r'. split; [exact Hl|]. apply Heq.
  repeat constructor; exists 4%nat; reflexivity.
Defined.

(** Where the claim C1 fails: a record, typed as the dataclass declares,
    whose radial grid is an array of three single-precision numbers is
    dumped, and loading it back raises instead of yielding the array. *)
Lemma single_precision_grid_not_loaded :
  well_typed hydrogen_single /\
  snd (_dump hydrogen_single "data" no_files) = Ok tt /\
  load (PStr "H") (PInt 0) (PInt 2) (PInt 0) (PStr "hci") "data"
       (fst (_dump hydrogen_single "data" no_files))
  = Raise (ValueError "buffer size must be a multiple of element size").
Proof.
  split; [|split].
  - apply hydrogen_well_typed; [left; exact I | right; reflexivity].
  - vm_compute. reflexivity.
  - vm_compute. reflexivity.
Qed.

(** ** Derived attributes *)

Lemma py_arith_int (op : Z -> Z -> Z) (x y v : pyval) :
  py_arith op x y = Ok v ->
  exists a b, as_int x = Some a /\ as_int y = Some b /\ v = PInt (op a b).
Proof.
  unfold py_arith. intros H.
  destruct (as_int x) as [a|], (as_int y) as [b|];
    try (destruct (is_number x && is_number y); discriminate).
  injection H as <-. eauto.
Qed.

Lemma Species_init_derived (kwargs : pydict) (r : Species) :
  Species_init kwargs = Ok r -> derived_ok r.
Proof.
  unfold Species_init. intros H.
  destruct (negb (forallb keyword_is_str kwargs)); [discriminate|].
  destruct (negb (forallb keyword_is_field kwargs)); [discriminate|].
  repeat match type of H with
         | bind (required ?kw ?name) _ = _ =>
             destruct (required kw name) as [?v|]; cbn [bind] in H; [|discriminate]
         end.
  match type of H with
  | bind (py_sub ?x ?y) _ = _ =>
      destruct (py_sub x y) as [c|] eqn:Ec; cbn [bind] in H; [|discriminate]
  end.
  match type of H with
  | bind (py_add ?x ?y) _ = _ =>
      destruct (py_add x y) as [m|] eqn:Em; cbn [bind] in H; [|discriminate]
  end.
  injection H as <-. unfold derived_ok. cbn [natom nelec nspin charge mult].
  apply py_arith_int in Ec as (a & e & Ha & He & ->).
  apply py_arith_int in Em as (n & one & Hn & Hone & ->).
  injection Hone as <-. exists a, e, n. auto.
Qed.

Lemma load_constructs (elem charge mult nexc dataset : pyval) (datapath : string)
  (fs : filesystem) (r : Species) :
  load elem charge mult nexc dataset datapath fs = Ok r ->
  exists kwargs, Species_init kwargs = Ok r.
Proof.
  unfold load. intros H.
  repeat match type of H with
         | bind ?x _ = _ => destruct x; cbn [bind] in H; [|discriminate]
         end.
  eauto.
Qed.

Lemma derived_not_fields : ~ In "charge" field_names /\ ~ In "mult" field_names.
Proof.
  split; intros H; vm_compute in H; intuition discriminate.
Qed.

(** C5.  On every construction of a species record, every load included,
    the charge is the atom count minus the electron count and the
    multiplicity is the spin count plus one; what a dump of the record
    writes is the packing of a map whose keys are the dataclass fields, of
    which neither derived attribute is one. *)
Theorem derived_attributes (r : Species)
  (Hconstructed :
     (exists kwargs, Species_init kwargs = Ok r) \/
     (exists elem charge mult nexc dataset datapath fs,
        load elem charge mult nexc dataset datapath fs = Ok r)) :
  derived_ok r /\
  (forall datapath fs fs', _dump r datapath fs = (fs', Ok tt) ->
     exists fn msg packed,
       fs' fn = Some packed /\ pack_msg (PDict msg) = Ok packed /\
       map fst msg = map KStr field_names) /\
  ~ In "charge" field_names /\ ~ In "mult" field_names.
Proof.
  split; [|split; [|exact derived_not_fields]].
  - destruct Hconstructed as [[kwargs H]|(e & c & m & k & d & p & fs & H)].
    + exact (Species_init_derived kwargs r H).
    + destruct (load_constructs _ _ _ _ _ _ _ _ H) as [kwargs H'].
      exact (Species_init_derived kwargs r H').
  - intros datapath fs fs' H. unfold _dump in H.
    destruct (_msgfile (elem r) (charge r) (mult r) (nexc r) (dataset r) datapath)
      as [fn|]; [|discriminate].
    rewrite CodecFacts.dump_msg in H.
    destruct (pack_msg (PDict (map (fun kv => (fst kv, CodecFacts.wire (snd kv)))
                                   (asdict r)))) as [packed|] eqn:Ep; [|discriminate].
    injection H as <-. exists fn. eexists. exists packed.
    split; [|split; [exact Ep|]].
    + unfold fs_write. rewrite String.eqb_refl. reflexivity.
    + rewrite CodecFacts.map_fst_values. reflexivity.
Qed.

Lemma derived_attributes_witness :
  exists r,
    load (PStr "H") (PInt 0) (PInt 2) (PInt 0) (PStr "hci") "data"
         (fst (_dump hydrogen "data" no_files)) = Ok r /\
    derived_ok r.
Proof.
  eexists. split; [vm_compute; reflexivity|].
  eapply derived_attributes. right.
  exists (PStr "H"), (PInt 0), (PInt 2), (PInt 0), (PStr "hci"), "data",
         (fst (_dump hydrogen "data" no_files)).
  vm_compute. reflexivity.
Defined.

(** ** Paths *)

(** The path of a key whose element is given by its symbol. *)
Lemma msgfile_of_symbol (symbol dataset datapath : string) (charge mult nexc : Z) :
  _msgfile (PStr symbol) (PInt charge) (PInt mult) (PInt nexc) (PStr dataset) datapath
  = Ok (join datapath
          (String.concat ""
             [lower dataset; "/db/"; symbol; "_"; str_of_int charge; "_";
              str_of_int mult; "_"; str_of_int nexc; ".msg"])).
Proof. reflexivity. Qed.

(** The path of a key whose element is given by its atomic number: the
    number is written as it is. *)
Lemma msgfile_of_number (z : Z) (dataset datapath : string) (charge mult nexc : Z) :
  _msgfile (PInt z) (PInt charge) (PInt mult) (PInt nexc) (PStr dataset) datapath
  = _msgfile (PStr (str_of_int z)) (PInt charge) (PInt mult) (PInt nexc)
             (PStr dataset) datapath.
Proof. reflexivity. Qed.

(** The raw-file path normalises its element: by number or by symbol, one
    path. *)
Lemma datafile_by_number_or_symbol (z : Z) (suffix datapath : string)
  (charge mult nexc dataset : pyval) :
  0 <= z <= 118 ->
  exists symbol,
    element_symbol (PInt z) = Ok (PStr symbol) /\
    datafile suffix (PInt z) charge mult nexc dataset datapath
    = datafile suffix (PStr symbol) charge mult nexc dataset datapath.
Proof.
  intros Hz. destruct (symbol_then_number z Hz) as (symbol & Hsym & Hnum).
  exists symbol. split; [exact Hsym|].
  unfold datafile. rewrite Hnum. reflexivity.
Qed.

(** C2, at the key (1, 0, 2, 0, "hci"): atomic number 1 is hydrogen, yet
    the path of the key keeps the number where the path of the same key
    given with the symbol has "H", and a load by number does not find the
    record that was dumped and that a load by symbol finds; the raw-file
    path of the same two keys is one path. *)
Theorem msgfile_keeps_atomic_number :
  element_symbol (PInt 1) = Ok (PStr "H") /\
  _msgfile (PInt 1) (PInt 0) (PInt 2) (PInt 0) (PStr "hci") "data"
    = Ok "data/hci/db/1_0_2_0.msg" /\
  _msgfile (PStr "H") (PInt 0) (PInt 2) (PInt 0) (PStr "hci") "data"
    = Ok "data/hci/db/H_0_2_0.msg" /\
  load (PInt 1) (PInt 0) (PInt 2) (PInt 0) (PStr "hci") "data"
       (fst (_dump hydrogen "data" no_files))
    = Raise (FileNotFoundError "data/hci/db/1_0_2_0.msg") /\
  (exists r,
     load (PStr "H") (PInt 0) (PInt 2) (PInt 0) (PStr "hci") "data"
          (fst (_dump hydrogen "data" no_files)) = Ok r) /\
  datafile "out" (PInt 1) (PInt 0) (PInt 2) (PInt 0) (PStr "hci") "data"
    = Ok "data/hci/raw/001_q000_m02_k00_sp_hci_out" /\
  datafile "out" (PStr "H") (PInt 0) (PInt 2) (PInt 0) (PStr "hci") "data"
    = Ok "data/hci/raw/001_q000_m02_k00_sp_hci_out".
Proof.
  repeat split; try (vm_compute; reflexivity).
  eexists. vm_compute. reflexivity.
Qed.

(** ** Splines: which call raises what *)

Section SplineErrors.

Context {lib : NumLib}.

(** The message of the unavailable-channel error of each method. *)
Definition unavailable (f : family) (spin : string) : string :=
  match f with
  | Density => fmt "Density spline for occupied `" spin "` spin-orbitals unavailable"
  | Derivative =>
      fmt "Density derivative spline for occupied `" spin "` spin-orbitals unavailable."
  | Laplacian => fmt "Density laplacian for occupied `" spin "` spin-orbitals unavailable"
  | Kinetic =>
      fmt "Kinetic energy density for occupied `" spin "` spin-orbitals unavailable."
  end.

(** A method called with a known selector and the default [index]. *)
Lemma spline_method_default (f : family) (v : spin_variant) (r : Species)
  (points : list R) (log : bool) :
  spline_method f r points (selector v) None log
  = (spline <- match channel f v r with
               | PNone => Raise (ValueError (unavailable f (selector v)))
               | _ => cubic_interp (rs r) (channel f v r) log
               end ;;
     Ok (map spline points)).
Proof. destruct f, v; reflexivity. Qed.

Lemma getitem_unknown (up dn tot mag : pyval) (spin : string) :
  ~ In spin ["a"; "b"; "ab"; "m"] ->
  getitem [(KStr "a", up); (KStr "b", dn); (KStr "ab", tot); (KStr "m", mag)] spin
  = Raise (KeyError spin).
Proof.
  intros H. unfold getitem. cbn [dict_get Msgpack.pykey_eqb].
  assert (forall k, In k ["a"; "b"; "ab"; "m"] -> String.eqb k spin = false) as Hne.
  { intros k Hk. apply String.eqb_neq. intros ->. exact (H Hk). }
  rewrite !Hne by (simpl; tauto). reflexivity.
Qed.

(** C6.  For every record and every spin variant whose array of the
    requested family is absent, the family's spline method called with the
    default orbital-index argument raises the unavailable-channel error and
    returns no value. *)
Theorem absent_channel_unavailable (f : family) (v : spin_variant) (r : Species)
  (points : list R) (log : bool) (Habsent : channel f v r = PNone) :
  spline_method f r points (selector v) None log
  = Raise (ValueError (unavailable f (selector v))).
Proof.
  rewrite spline_method_default, Habsent. reflexivity.
Qed.

(** C7.  Every call of one of the four spline methods with an
    orbital-index argument other than the default raises the not-supported
    error, whatever the selector, the channels and the points, and returns
    no interpolation. *)
Theorem orbital_subset_not_supported (f : family) (r : Species) (points : list R)
  (spin : string) (index : list Z) (log : bool) :
  exists msg,
    spline_method f r points spin (Some index) log = Raise (NotImplementedError msg) /\
    (forall values, spline_method f r points spin (Some index) log <> Ok values) /\
    (forall m, NotImplementedError msg <> ValueError m) /\
    (forall k, NotImplementedError msg <> KeyError k).
Proof.
  destruct f; eexists; (split; [reflexivity|]);
    repeat split; intros; discriminate.
Qed.

(** C10.  For every selector string other than "a", "b", "ab" and "m" and
    the default orbital-index argument, each of the four spline methods
    raises the key error of the lookup, which is not the unavailable-channel
    error, whatever the record holds and whatever the numerical library
    would do: no channel is inspected and no spline is built. *)
Theorem unknown_selector_key_error (f : family) (r : Species) (points : list R)
  (spin : string) (log : bool) (Hspin : ~ In spin ["a"; "b"; "ab"; "m"]) :
  spline_method f r points spin None log = Raise (KeyError spin) /\
  (forall msg, spline_method f r points spin None log <> Raise (ValueError msg)).
Proof.
  assert (spline_method f r points spin None log = Raise (KeyError spin)) as E.
  { destruct f; cbn [spline_method];
      unfold dens_spline, d_dens_spline, lapl_spline, ked_spline;
      cbv zeta; rewrite getitem_unknown by exact Hspin; reflexivity. }
  split; [exact E|]. intros msg. rewrite E. discriminate.
Qed.

End SplineErrors.

(** ** A numerical library to run the examples with

    Arrays of small integers, one per byte, and the interpolant that looks
    the evaluation point up among the abscissae. *)

Fixpoint knot_lookup (xs ys : list R) (p : R) : R :=
  match xs, ys with
  | x :: xs', y :: ys' => if Req_dec_T p x then y else knot_lookup xs' ys' p
  | _, _ => 0%R
  end.

Definition table_lib : NumLib :=
  {| array_values := fun a => map (fun b => IZR (byte_val b)) (arr_data a);
     interp1d := fun xs ys => Ok (knot_lookup xs ys) |}.

Definition ramp : ndarray :=
  {| arr_dtype := Int8; arr_shape := [4%nat]; arr_data := [x01; x02; x03; x04] |}.

Definition levels : ndarray :=
  {| arr_dtype := Int8; arr_shape := [4%nat]; arr_data := [x08; x04; x02; x01] |}.

Definition stepped : Species := hydrogen_with (PArray ramp) (PArray levels).

Lemma absent_channel_unavailable_witness :
  dens_spline (lib := table_lib) hydrogen [1%R; 2%R] "b" None false
  = Raise (ValueError "Density spline for occupied `b` spin-orbitals unavailable").
Proof.
  exact (absent_channel_unavailable (lib := table_lib) Density Beta hydrogen
           [1%R; 2%R] false eq_refl).
Defined.

Lemma unknown_selector_key_error_witness :
  ked_spline (lib := table_lib) hydrogen [1%R] "beta" None true
  = Raise (KeyError "beta").
Proof.
  apply (unknown_selector_key_error (lib := table_lib) Kinetic hydrogen [1%R] "beta" true).
  simpl. intuition discriminate.
Defined.

(** * Further properties of the code *)

(** ** The element table, outside the valid range *)

(** X1.  An integer from -119 to -1 is taken as an index from the end of
    the table: [element_symbol] answers as for that integer plus 119. *)
Theorem element_symbol_counts_from_end (z : Z) (Hz : -119 <= z < 0) :
  element_symbol (PInt z) = element_symbol (PInt (z + 119)).
Proof.
  unfold element_symbol, tuple_getitem. cbv zeta. rewrite ELEMENTS_length.
  change (Z.of_nat 119) with 119.
  assert ((z <? 0) = true) as E1 by (apply Z.ltb_lt; lia).
  assert ((z + 119 <? 0) = false) as E2 by (apply Z.ltb_ge; lia).
  rewrite E1, E2. cbv iota. rewrite E2. reflexivity.
Qed.

Lemma element_symbol_counts_from_end_witness :
  element_symbol (PInt (-118)) = element_symbol (PInt 1).
Proof.
  apply (element_symbol_counts_from_end (-118)). lia.
Defined.

(** X2.  Both conversions are idempotent: what [element_symbol] returns it
    returns unchanged when given it again, and so for [element_number]. *)
Theorem element_conversions_idempotent (x y x' y' : pyval)
  (Hsym : element_symbol x = Ok y) (Hnum : element_number x' = Ok y') :
  element_symbol y = Ok y /\ element_number y' = Ok y'.
Proof.
  split.
  - destruct x; try (injection Hsym as <-; reflexivity);
      unfold element_symbol, tuple_getitem in Hsym; cbv zeta in Hsym;
      repeat match type of Hsym with
             | (if ?c then _ else _) = _ => destruct c
             | match ?o with Some _ => _ | None => _ end = _ => destruct o
             end;
      try discriminate; injection Hsym as <-; reflexivity.
  - destruct x'; try (injection Hnum as <-; reflexivity).
    unfold element_number, tuple_index in Hnum.
    destruct (index_from 0 s ELEMENTS); [|discriminate].
    injection Hnum as <-. reflexivity.
Qed.

Lemma element_conversions_idempotent_witness :
  element_symbol (PStr "Fe") = Ok (PStr "Fe") /\
  element_number (PInt 26) = Ok (PInt 26).
Proof.
  apply (element_conversions_idempotent (PInt 26) (PStr "Fe") (PStr "Fe") (PInt 26));
    reflexivity.
Defined.

(** ** Construction of a record *)

(** The fields without a default. *)
Definition required_fields : list string :=
  map (fun f => fst (fst f)) (filter (fun f => negb (snd f)) FIELDS).

(** X3.  Constructing a record without one of the ten fields that have no
    default raises a [TypeError]. *)
Theorem init_requires_identity_fields (kwargs : pydict) (name : string)
  (Hname : In name required_fields)
  (Hmissing : dict_get kwargs (KStr name) = None) :
  exists msg, Species_init kwargs = Raise (TypeError msg).
Proof.
  unfold Species_init.
  destruct (negb (forallb keyword_is_str kwargs)); [eauto|].
  destruct (negb (forallb keyword_is_field kwargs)); [eauto|].
  unfold required.
  repeat match goal with
         | |- context [dict_get kwargs (KStr ?n)] =>
             lazymatch n with
             | name => fail
             | _ =>
                 let E := fresh "E" in
                 destruct (dict_get kwargs (KStr n)) eqn:E; cbn [bind];
                 [|eexists; reflexivity]
             end
         end.
  vm_compute in Hname.
  repeat (destruct Hname as [<-|Hname]; [congruence|]).
  contradiction.
Qed.

Lemma init_requires_identity_fields_witness :
  exists msg, Species_init [(KStr "dataset", PStr "hci")] = Raise (TypeError msg).
Proof.
  apply (init_requires_identity_fields _ "mass").
  - vm_compute. tauto.
  - reflexivity.
Defined.

(** X4.  Constructing a record with a keyword that is no dataclass field
    raises a [TypeError], whatever the other keywords are. *)
Theorem init_rejects_unknown_keyword (kwargs : pydict) (k : pykey) (v : pyval)
  (Hin : In (k, v) kwargs)
  (Hunknown : forall name, In name field_names -> k <> KStr name) :
  exists msg, Species_init kwargs = Raise (TypeError msg).
Proof.
  unfold Species_init.
  destruct (negb (forallb keyword_is_str kwargs)); [eauto|].
  assert (forallb keyword_is_field kwargs = false) as ->; [|cbn [negb]; eauto].
  destruct (forallb keyword_is_field kwargs) eqn:E; [|reflexivity].
  rewrite forallb_forall in E. specialize (E (k, v) Hin).
  unfold keyword_is_field in E. cbn [fst] in E.
  destruct k as [s|b]; [|discriminate].
  apply existsb_exists in E as (name & Hname & Heq).
  apply String.eqb_eq in Heq. subst. exfalso. exact (Hunknown name Hname eq_refl).
Qed.

Lemma init_rejects_unknown_keyword_witness :
  exists msg,
    Species_init (asdict hydrogen ++ [(KStr "charge", PInt 0)]) = Raise (TypeError msg).
Proof.
  apply (init_rejects_unknown_keyword _ (KStr "charge") (PInt 0)).
  - apply in_or_app. right. left. reflexivity.
  - intros name Hname E. injection E as <-.
    exact (proj1 derived_not_fields Hname).
Defined.

Lemma required_value (kwargs : pydict) (name : string) (v : pyval) :
  required kwargs name = Ok v -> dict_get kwargs (KStr name) = Some v.
Proof.
  unfold required. destruct (dict_get kwargs (KStr name)); [|discriminate].
  intros H. injection H as <-. reflexivity.
Qed.

(** The record a successful construction yields, field by field. *)
Lemma Species_init_fields (kwargs : pydict) (r : Species) :
  Species_init kwargs = Ok r ->
  asdict r
  = map (fun name => (KStr name, optional kwargs name)) field_names.
Proof.
  unfold Species_init. intros H.
  destruct (negb (forallb keyword_is_str kwargs)); [discriminate|].
  destruct (negb (forallb keyword_is_field kwargs)); [discriminate|].
  repeat match type of H with
         | bind (required ?kw ?name) _ = _ =>
             let E := fresh "E" in
             destruct (required kw name) as [?v|] eqn:E; cbn [bind] in H;
             [apply required_value in E|discriminate]
         end.
  match type of H with
  | bind (py_sub ?x ?y) _ = _ =>
      destruct (py_sub x y) as [c|]; cbn [bind] in H; [|discriminate]
  end.
  match type of H with
  | bind (py_add ?x ?y) _ = _ =>
      destruct (py_add x y) as [m|]; cbn [bind] in H; [|discriminate]
  end.
  injection H as <-. unfold asdict, field_names, FIELDS.
  cbn [map fst snd dataset elem natom basis nelec nspin nexc cov_radii vdw_radii
       mass energy mo_energies mo_occs ip mu eta rs dens_up dens_dn dens_tot
       dens_mag d_dens_up d_dens_dn d_dens_tot d_dens_mag lapl_up lapl_dn
       lapl_tot lapl_mag ked_up ked_dn ked_tot ked_mag].
  unfold optional.
  repeat match goal with
         | E : dict_get kwargs _ = Some _ |- _ => rewrite E; clear E
         end.
  reflexivity.
Qed.

(** X5.  A constructed record holds, in each dataclass field, the value of
    the keyword of that name, and [None] where the keyword was not given. *)
Theorem init_stores_keywords (kwargs : pydict) (r : Species) (name : string)
  (Hinit : Species_init kwargs = Ok r) (Hname : In name field_names) :
  dict_get (asdict r) (KStr name)
  = Some (match dict_get kwargs (KStr name) with
          | Some v => v
          | None => PNone
          end).
Proof.
  rewrite (Species_init_fields kwargs r Hinit).
  fold (optional kwargs name).
  generalize (optional kwargs). intros g.
  vm_compute in Hname.
  repeat (destruct Hname as [<-|Hname]; [reflexivity|]).
  contradiction.
Qed.

Lemma init_stores_keywords_witness :
  exists r,
    Species_init (asdict hydrogen) = Ok r /\
    dict_get (asdict r) (KStr "ked_tot") = Some PNone.
Proof.
  assert (exists r, Species_init (asdict hydrogen) = Ok r) as [r Hr]
    by (eexists; vm_compute; reflexivity).
  exists r. split; [exact Hr|].
  apply (init_stores_keywords (asdict hydrogen) r "ked_tot" Hr).
  vm_compute. tauto.
Defined.

Lemma py_arith_as_int (op : Z -> Z -> Z) (x y : pyval) (a b : Z) :
  as_int x = Some a -> as_int y = Some b -> py_arith op x y = Ok (PInt (op a b)).
Proof. unfold py_arith. intros -> ->. reflexivity. Qed.

(** X6.  A constructed record is rebuilt from its own [to_dict]: the
    construction from the dict of its fields yields a record with the same
    fields, the same charge and the same multiplicity. *)
Theorem init_of_to_dict (kwargs : pydict) (r : Species)
  (Hinit : Species_init kwargs = Ok r) :
  Species_init (to_dict r) = Ok r.
Proof.
  destruct (Species_init_derived kwargs r Hinit)
    as (a & e & n & Ha & He & Hn & Hc & Hm).
  unfold to_dict, Species_init.
  set (kw := asdict r).
  assert (forallb keyword_is_str kw = true) as -> by reflexivity.
  assert (forallb keyword_is_field kw = true) as -> by reflexivity.
  cbn [negb].
  assert (required kw "dataset" = Ok (dataset r)) as -> by reflexivity.
  assert (required kw "elem" = Ok (elem r)) as -> by reflexivity.
  assert (required kw "natom" = Ok (natom r)) as -> by reflexivity.
  assert (required kw "basis" = Ok (basis r)) as -> by reflexivity.
  assert (required kw "nelec" = Ok (nelec r)) as -> by reflexivity.
  assert (required kw "nspin" = Ok (nspin r)) as -> by reflexivity.
  assert (required kw "nexc" = Ok (nexc r)) as -> by reflexivity.
  assert (required kw "cov_radii" = Ok (cov_radii r)) as -> by reflexivity.
  assert (required kw "vdw_radii" = Ok (vdw_radii r)) as -> by reflexivity.
  assert (required kw "mass" = Ok (mass r)) as -> by reflexivity.
  cbn [bind]. unfold py_sub, py_add.
  rewrite (py_arith_as_int Z.sub _ _ a e Ha He).
  rewrite (py_arith_as_int Z.add _ (PInt 1) n 1 Hn eq_refl).
  cbn [bind]. rewrite <- Hc, <- Hm. destruct r. reflexivity.
Qed.

Lemma init_of_to_dict_witness :
  exists r, Species_init (asdict hydrogen) = Ok r /\ Species_init (to_dict r) = Ok r.
Proof.
  assert (exists r, Species_init (asdict hydrogen) = Ok r) as [r Hr]
    by (eexists; vm_compute; reflexivity).
  exists r. split; [exact Hr|].
  exact (init_of_to_dict (asdict hydrogen) r Hr).
Defined.

(** ** Dumps and the files they touch *)

(** The two ways a dump ends once its path is resolved. *)
Lemma dump_outcome (r : Species) (datapath fn : string) (fs : filesystem) :
  _msgfile (elem r) (charge r) (mult r) (nexc r) (dataset r) datapath = Ok fn ->
  (exists e, _dump r datapath fs = (fs_write fs fn [], Raise e)) \/
  (exists packed,
     _dump r datapath fs = (fs_write (fs_write fs fn []) fn packed, Ok tt)).
Proof.
  intros Hfn. unfold _dump. rewrite Hfn, CodecFacts.dump_msg.
  destruct (pack_msg _) as [packed|e]; eauto.
Qed.

Lemma fs_write_same (fs : filesystem) (fn : string) (content : list byte) :
  fs_write fs fn content fn = Some content.
Proof. unfold fs_write. rewrite String.eqb_refl. reflexivity. Qed.

Lemma fs_write_other (fs : filesystem) (fn p : string) (content : list byte) :
  p <> fn -> fs_write fs fn content p = fs p.
Proof.
  intros H. unfold fs_write.
  destruct (String.eqb p fn) eqn:E; [apply String.eqb_eq in E; contradiction|].
  reflexivity.
Qed.

(** X9.  The last dump wins: dumping a record over the file of an earlier
    dump of the same key leaves every file as dumping the record alone
    would, with the same outcome. *)
Theorem dump_overwrites (r1 r2 : Species) (datapath fn : string)
  (fs fs1 : filesystem) (res1 : result unit)
  (Hfirst : _dump r1 datapath fs = (fs1, res1))
  (Hpath1 : _msgfile (elem r1) (charge r1) (mult r1) (nexc r1) (dataset r1) datapath
            = Ok fn)
  (Hpath2 : _msgfile (elem r2) (charge r2) (mult r2) (nexc r2) (dataset r2) datapath
            = Ok fn) :
  snd (_dump r2 datapath fs1) = snd (_dump r2 datapath fs) /\
  forall p, fst (_dump r2 datapath fs1) p = fst (_dump r2 datapath fs) p.
Proof.
  assert (forall p, p <> fn -> fs1 p = fs p) as Hframe.
  { intros p Hp.
    destruct (dump_outcome r1 datapath fn fs Hpath1) as [[e' H]|[packed H]];
      rewrite H in Hfirst; injection Hfirst as <- _;
      rewrite ?fs_write_other by exact Hp; reflexivity. }
  unfold _dump. rewrite Hpath2, CodecFacts.dump_msg.
  destruct (pack_msg _) as [packed|e]; cbn [fst snd]; (split; [reflexivity|]);
    intros p; (destruct (string_dec p fn) as [->|Hp];
               [rewrite !fs_write_same; reflexivity
               |rewrite !fs_write_other by exact Hp; apply Hframe; exact Hp]).
Qed.

Lemma dump_overwrites_witness :
  snd (_dump stepped "data" (fst (_dump hydrogen "data" no_files)))
  = snd (_dump stepped "data" no_files) /\
  fst (_dump stepped "data" (fst (_dump hydrogen "data" no_files)))
      "data/hci/db/H_0_2_0.msg"
  = fst (_dump stepped "data" no_files) "data/hci/db/H_0_2_0.msg".
Proof.
  assert (_dump hydrogen "data" no_files
          = (fst (_dump hydrogen "data" no_files), Ok tt)) as Hfirst
    by (vm_compute; reflexivity).
  assert (_msgfile (elem hydrogen) (charge hydrogen) (mult hydrogen) (nexc hydrogen)
            (dataset hydrogen) "data" = Ok "data/hci/db/H_0_2_0.msg") as Hpath1
    by (vm_compute; reflexivity).
  assert (_msgfile (elem stepped) (charge stepped) (mult stepped) (nexc stepped)
            (dataset stepped) "data" = Ok "data/hci/db/H_0_2_0.msg") as Hpath2
    by (vm_compute; reflexivity).
  destruct (dump_overwrites hydrogen stepped "data" "data/hci/db/H_0_2_0.msg"
              no_files _ (Ok tt) Hfirst Hpath1 Hpath2) as [Hres Hfiles].
  split; [exact Hres|apply Hfiles].
Defined.

(** ** What the unpacker yields and raises *)

(** The exceptions of decoding a stream into a record. *)
Definition decode_failure (e : exn) : Prop :=
  match e with
  | OutOfData | FormatError | StackError | NotModelled _
  | ValueError _ | AttributeError _ | TypeError _ => True
  | _ => False
  end.

Module ShapeFacts.
Import Msgpack.

Section Tagged.
Variable u : list byte -> result (pyval * list byte).
Variable Q : result (pyval * list byte) -> Prop.
Hypothesis Qint : forall z r, Q (Ok (PInt z, r)).
Hypothesis Qnone : forall r, Q (Ok (PNone, r)).
Hypothesis Qbool : forall b r, Q (Ok (PBool b, r)).
Hypothesis Qfloat : forall x r, Q (Ok (PFloat x, r)).
Hypothesis Qstr : forall s r, Q (Ok (PStr s, r)).
Hypothesis Qbytes : forall b r, Q (Ok (PBytes b, r)).
Hypothesis Qentries : forall n r, Q (entries u n r []).
Hypothesis Qraise : forall e, decode_failure e -> Q (Raise e).

Lemma take_cases (A : Type) (n : nat) (bs : list byte)
  (k : list byte * list byte -> result A) (P : result A -> Prop) :
  P (Raise OutOfData) -> (forall f r, P (k (f, r))) -> P (bind (take n bs) k).
Proof.
  intros H1 H2. unfold take. destruct (List.length bs <? n)%nat; simpl; auto.
Qed.

Lemma take_be_cases (A : Type) (n : nat) (bs : list byte)
  (k : Z * list byte -> result A) (P : result A -> Prop) :
  P (Raise OutOfData) -> (forall z r, P (k (z, r))) -> P (bind (take_be n bs) k).
Proof.
  intros H1 H2. unfold take_be, take.
  destruct (List.length bs <? n)%nat; simpl; auto.
Qed.

Lemma Q_take_str n r : Q (take_str n r).
Proof.
  unfold take_str. apply take_cases; [apply Qraise; exact I|].
  intros f r'. apply Qstr.
Qed.

Lemma Q_take_bin n r : Q (take_bin n r).
Proof.
  unfold take_bin. apply take_cases; [apply Qraise; exact I|].
  intros f r'. apply Qbytes.
Qed.

Lemma Q_take_uint n r : Q (take_uint n r).
Proof.
  unfold take_uint. apply take_cases; [apply Qraise; exact I|].
  intros f r'. apply Qint.
Qed.

Lemma Q_take_int n r : Q (take_int n r).
Proof.
  unfold take_int. apply take_cases; [apply Qraise; exact I|].
  intros f r'. apply Qint.
Qed.

Lemma Q_take_f64 r : Q (take_f64 r).
Proof.
  unfold take_f64.
  repeat match goal with
         | |- Q (match ?l with [] => _ | _ :: _ => _ end) => destruct l
         end; try (apply Qraise; exact I). apply Qfloat.
Qed.

(** Whatever holds of every scalar result, of the entries of a map and of
    every decoding failure holds of the object a format byte announces. *)
Lemma unpack_tagged_cases (t : Z) (rest : list byte) : Q (unpack_tagged u t rest).
Proof.
  unfold unpack_tagged.
  repeat match goal with
         | |- Q (if ?c then _ else _) => destruct c
         end;
    try apply Qint; try apply Qnone; try apply Qbool; try apply Qentries;
    try apply Q_take_str; try apply Q_take_f64; try apply Q_take_uint;
    try apply Q_take_int; try (apply Qraise; exact I);
    apply take_be_cases; try (apply Qraise; exact I); intros z r;
    first [apply Q_take_bin | apply Q_take_str | apply Qentries].
Qed.

End Tagged.

Lemma dict_set_values (P : pyval -> Prop) (d : pydict) (k : pykey) (v : pyval) :
  Forall P (map snd d) -> P v -> Forall P (map snd (dict_set d k v)).
Proof.
  induction d as [|[k' v'] d IH]; simpl; intros Hd Hv.
  - constructor; [exact Hv | constructor].
  - inversion Hd; subst. destruct (pykey_eqb k' k); simpl; constructor; auto.
Qed.

Lemma dict_get_In (d : pydict) (k : pykey) (v : pyval) :
  dict_get d k = Some v -> In v (map snd d).
Proof.
  induction d as [|[k' v'] d IH]; simpl; [discriminate|].
  destruct (pykey_eqb k' k).
  - intros H. injection H as <-. left. reflexivity.
  - intros H. right. exact (IH H).
Qed.

(** The values stored by the entries of a map are values the unpacker
    yielded. *)
Lemma entries_values (u : list byte -> result (pyval * list byte))
  (P : pyval -> Prop) :
  (forall bs v r, u bs = Ok (v, r) -> P v) ->
  forall n bs acc w rest,
    Forall P (map snd acc) ->
    entries u n bs acc = Ok (w, rest) ->
    exists d, w = PDict d /\ Forall P (map snd d).
Proof.
  intros Hu. induction n as [|n IH]; intros bs acc w rest Hacc H; simpl in H.
  - injection H as <- _. eauto.
  - destruct (u bs) as [[k bs1]|] eqn:Ek; [|discriminate]. cbn [bind] in H.
    destruct (u bs1) as [[v bs2]|] eqn:Ev; [|discriminate]. cbn [bind] in H.
    destruct (as_key k) as [key|]; [|discriminate]. cbn [bind] in H.
    apply (IH _ _ _ _ (dict_set_values P acc key v Hacc (Hu _ _ _ Ev)) H).
Qed.

Lemma entries_failure (u : list byte -> result (pyval * list byte)) :
  (forall bs e, u bs = Raise e -> decode_failure e) ->
  forall n bs acc e, entries u n bs acc = Raise e -> decode_failure e.
Proof.
  intros Hu. induction n as [|n IH]; intros bs acc e H; simpl in H; [discriminate|].
  destruct (u bs) as [[k bs1]|e1] eqn:Ek; cbn [bind] in H;
    [|injection H as <-; exact (Hu _ _ Ek)].
  destruct (u bs1) as [[v bs2]|e2] eqn:Ev; cbn [bind] in H;
    [|injection H as <-; exact (Hu _ _ Ev)].
  destruct k; cbn [as_key bind] in H;
    try (injection H as <-; exact I); exact (IH _ _ _ H).
Qed.

Definition not_array (v : pyval) : Prop :=
  match v with
  | PArray _ => False
  | _ => True
  end.

(** The unpacker never yields an array. *)
Lemma unpack_not_array (f : nat) :
  forall bs v rest, unpack f bs = Ok (v, rest) -> not_array v.
Proof.
  destruct f as [|f]; intros bs v rest H; simpl in H; [discriminate|].
  destruct bs as [|b bs]; [discriminate|].
  revert H.
  apply (unpack_tagged_cases (unpack f)
           (fun res => res = Ok (v, rest) -> not_array v));
    try (intros; match goal with H : Ok _ = Ok _ |- _ => injection H as <- _ end;
         exact I);
    try (intros; discriminate).
  intros n r H.
  destruct (entries_values (unpack f) (fun _ => True) (fun _ _ _ _ => I)
              n r [] v rest (Forall_nil _) H) as (d & -> & _).
  exact I.
Qed.

(** Nor does a dict it yields hold one. *)
Lemma unpack_dict_values (f : nat) :
  forall bs d rest, unpack f bs = Ok (PDict d, rest) -> Forall not_array (map snd d).
Proof.
  destruct f as [|f]; intros bs d rest H; simpl in H; [discriminate|].
  destruct bs as [|b bs]; [discriminate|].
  revert H.
  apply (unpack_tagged_cases (unpack f)
           (fun res => res = Ok (PDict d, rest) -> Forall not_array (map snd d)));
    try (intros; discriminate).
  intros n r H.
  destruct (entries_values (unpack f) not_array (unpack_not_array f)
              n r [] _ rest (Forall_nil _) H) as (d' & E & Hd).
  injection E as <-. exact Hd.
Qed.

(** The exceptions of the unpacker. *)
Lemma unpack_failure (f : nat) :
  forall bs e, unpack f bs = Raise e -> decode_failure e.
Proof.
  induction f as [|f IH]; intros bs e H; simpl in H.
  - injection H as <-. exact I.
  - destruct bs as [|b bs]; [injection H as <-; exact I|].
    revert H.
    apply (unpack_tagged_cases (unpack f)
             (fun res => res = Raise e -> decode_failure e));
      try (intros; discriminate).
    + intros n r H. exact (entries_failure (unpack f) IH n r [] e H).
    + intros e' He' H. injection H as <-. exact He'.
Qed.

End ShapeFacts.

(** ** What a load yields and raises *)

Module LoadFacts.
Import Msgpack ShapeFacts.

(** The values of a comprehension are images of the values of the dict. *)
Lemma comprehension_values (f : pyval -> result pyval) (P0 P : pyval -> Prop) :
  (forall v v', P0 v -> f v = Ok v' -> P v') ->
  forall d acc kw,
    Forall P0 (map snd d) -> Forall P (map snd acc) ->
    dict_comprehension_from acc f d = Ok kw -> Forall P (map snd kw).
Proof.
  intros Hf. induction d as [|[k v] d IH]; intros acc kw Hd Hacc H; simpl in H.
  - injection H as <-. exact Hacc.
  - inversion Hd as [|? ? Hv Hd']; subst.
    destruct (f v) as [v'|] eqn:Ev; [|discriminate]. cbn [bind] in H.
    apply (IH _ _ Hd' (dict_set_values P acc k v' Hacc (Hf v v' Hv Ev)) H).
Qed.

Lemma comprehension_failure (f : pyval -> result pyval) :
  (forall v e, f v = Raise e -> decode_failure e) ->
  forall d acc e, dict_comprehension_from acc f d = Raise e -> decode_failure e.
Proof.
  intros Hf. induction d as [|[k v] d IH]; intros acc e H; simpl in H; [discriminate|].
  destruct (f v) as [v'|e'] eqn:Ev; cbn [bind] in H.
  - exact (IH _ _ H).
  - injection H as <-. exact (Hf v e' Ev).
Qed.

Lemma from_msg_double_vector (v v' : pyval) :
  not_array v -> from_msg v = Ok v' -> double_vector v'.
Proof.
  destruct v; simpl; intros Hv H; try contradiction;
    try (injection H as <-; exact I).
  unfold frombuffer in H.
  destruct (List.length b mod 8 =? 0)%nat eqn:E; [|discriminate].
  injection H as <-. apply Nat.eqb_eq in E.
  unfold double_vector, arr_wf, arr_size.
  cbn [arr_dtype arr_shape arr_data itemsize fold_right].
  split; [reflexivity|]. split; [eauto|].
  rewrite Nat.mul_1_r.
  change (fst (Nat.divmod (List.length b) 7 0 7)) with (List.length b / 8)%nat.
  pose proof (Nat.div_mod_eq (List.length b) 8) as D. lia.
Qed.

Lemma from_msg_failure (v : pyval) (e : exn) :
  from_msg v = Raise e -> decode_failure e.
Proof.
  destruct v; simpl; try discriminate. unfold frombuffer.
  destruct (List.length b mod 8 =? 0)%nat; [discriminate|].
  intros H. injection H as <-. exact I.
Qed.

Lemma Species_init_failure (kwargs : pydict) (e : exn) :
  Species_init kwargs = Raise e -> decode_failure e.
Proof.
  unfold Species_init. intros H.
  destruct (negb (forallb keyword_is_str kwargs)); [injection H as <-; exact I|].
  destruct (negb (forallb keyword_is_field kwargs)); [injection H as <-; exact I|].
  unfold required in H.
  repeat match type of H with
         | bind (match ?o with Some _ => _ | None => _ end) _ = _ =>
             destruct o; cbn [bind] in H; [|injection H as <-; exact I]
         end.
  unfold py_sub, py_add, py_arith in H.
  repeat match type of H with
         | bind (match ?o with Some _ => _ | None => _ end) _ = _ =>
             destruct o; cbn [bind] in H
         | bind (if ?c then _ else _) _ = _ => destruct c; cbn [bind] in H
         end;
    try discriminate; injection H as <-; exact I.
Qed.

(** The stages of a load that finds its file. *)
Lemma load_found (elem charge mult nexc dataset : pyval) (datapath fn : string)
  (fs : filesystem) (stream : list byte) :
  _msgfile elem charge mult nexc dataset datapath = Ok fn ->
  fs fn = Some stream ->
  load elem charge mult nexc dataset datapath fs
  = (msg <- unpack_msg stream ;;
     d <- items msg ;;
     kwargs <- dict_comprehension from_msg d ;;
     Species_init kwargs).
Proof.
  intros Hfn Hfs. unfold load. rewrite Hfn. cbn [bind]. rewrite Hfs. reflexivity.
Qed.

Lemma load_located (elem charge mult nexc dataset : pyval) (datapath : string)
  (fs : filesystem) (r : Species) :
  load elem charge mult nexc dataset datapath fs = Ok r ->
  exists fn stream,
    _msgfile elem charge mult nexc dataset datapath = Ok fn /\ fs fn = Some stream.
Proof.
  unfold load. intros H.
  destruct (_msgfile elem charge mult nexc dataset datapath) as [fn|]; [|discriminate].
  cbn [bind] in H. destruct (fs fn) as [stream|] eqn:Hfs; [|discriminate]. eauto.
Qed.

End LoadFacts.

(** X10.  Every array of a loaded record is a one-dimensional
    double-precision array whose buffer holds as many 8-byte items as its
    shape says, and no field of a loaded record is a byte string. *)
Theorem loaded_arrays_are_double_vectors (elem charge mult nexc dataset : pyval)
  (datapath : string) (fs : filesystem) (r : Species)
  (Hload : load elem charge mult nexc dataset datapath fs = Ok r) :
  Forall double_vector (map snd (asdict r)).
Proof.
  destruct (LoadFacts.load_located _ _ _ _ _ _ _ _ Hload) as (fn & stream & Hfn & Hfs).
  rewrite (LoadFacts.load_found _ _ _ _ _ _ _ _ _ Hfn Hfs) in Hload.
  unfold unpack_msg in Hload.
  destruct (Msgpack.unpack (S (List.length stream)) stream) as [[msg rest]|] eqn:Eu;
    [|discriminate].
  cbn [bind] in Hload.
  destruct msg; try discriminate. cbn [items bind] in Hload.
  destruct (dict_comprehension from_msg d) as [kwargs|] eqn:Ek; [|discriminate].
  cbn [bind] in Hload.
  assert (Forall double_vector (map snd kwargs)) as Hkw.
  { apply (LoadFacts.comprehension_values from_msg ShapeFacts.not_array double_vector
             LoadFacts.from_msg_double_vector d [] kwargs).
    - exact (ShapeFacts.unpack_dict_values _ _ _ _ Eu).
    - constructor.
    - exact Ek. }
  rewrite (Species_init_fields kwargs r Hload), map_map. cbn [snd].
  apply Forall_map. apply Forall_forall. intros name _. unfold optional.
  destruct (dict_get kwargs (KStr name)) as [v|] eqn:Ev; [|exact I].
  rewrite Forall_forall in Hkw. apply Hkw.
  exact (ShapeFacts.dict_get_In _ _ _ Ev).
Qed.

Lemma loaded_arrays_are_double_vectors_witness :
  exists r,
    load (PStr "H") (PInt 0) (PInt 2) (PInt 0) (PStr "hci") "data"
         (fst (_dump hydrogen "data" no_files)) = Ok r /\
    Forall double_vector (map snd (asdict r)).
Proof.
  assert (exists r,
            load (PStr "H") (PInt 0) (PInt 2) (PInt 0) (PStr "hci") "data"
                 (fst (_dump hydrogen "data" no_files)) = Ok r) as [r Hr]
    by (eexists; vm_compute; reflexivity).
  exists r. split; [exact Hr|].
  exact (loaded_arrays_are_double_vectors _ _ _ _ _ _ _ r Hr).
Defined.

(** X11.  A [FileNotFoundError] raised by a load comes from opening the
    file and from nowhere else: once the path of the key is resolved, it
    names that path and no file is there.  No later stage of a load, the
    unpacking, the conversion of byte strings or the construction, raises
    it. *)
Theorem load_file_not_found (elem charge mult nexc dataset : pyval)
  (datapath fn p : string) (fs : filesystem)
  (Hpath : _msgfile elem charge mult nexc dataset datapath = Ok fn)
  (Hraise : load elem charge mult nexc dataset datapath fs
            = Raise (FileNotFoundError p)) :
  fs fn = None /\ p = fn.
Proof.
  destruct (fs fn) as [stream|] eqn:Hfs.
  - exfalso.
    rewrite (LoadFacts.load_found _ _ _ _ _ _ _ _ _ Hpath Hfs) in Hraise.
    assert (decode_failure (FileNotFoundError p)) as Hbad; [|exact Hbad].
    unfold unpack_msg in Hraise.
    destruct (Msgpack.unpack (S (List.length stream)) stream) as [[msg rest]|e] eqn:Eu;
      cbn [bind] in Hraise.
    2:{ injection Hraise as ->. exact (ShapeFacts.unpack_failure _ _ _ Eu). }
    destruct msg; cbn [items bind] in Hraise; try discriminate.
    destruct (dict_comprehension from_msg d) as [kwargs|e] eqn:Ek; cbn [bind] in Hraise.
    + exact (LoadFacts.Species_init_failure kwargs _ Hraise).
    + injection Hraise as ->.
      exact (LoadFacts.comprehension_failure from_msg LoadFacts.from_msg_failure
               d [] _ Ek).
  - unfold load in Hraise. rewrite Hpath in Hraise. cbn [bind] in Hraise.
    rewrite Hfs in Hraise. cbn [bind] in Hraise. injection Hraise as <-. auto.
Qed.

Lemma load_file_not_found_witness :
  fst (_dump hydrogen "data" no_files) "data/hci/db/He_0_1_0.msg" = None /\
  "data/hci/db/He_0_1_0.msg" = "data/hci/db/He_0_1_0.msg".
Proof.
  apply (load_file_not_found (PStr "He") (PInt 0) (PInt 1) (PInt 0) (PStr "hci")
           "data" "data/hci/db/He_0_1_0.msg" "data/hci/db/He_0_1_0.msg"
           (fst (_dump hydrogen "data" no_files))).
  - vm_compute. reflexivity.
  - vm_compute. reflexivity.
Defined.

(** ** Paths: which keys share a file *)

Module PathFacts.

Definition chars : string -> list ascii := list_ascii_of_string.

Lemma chars_append (s t : string) : chars (String.append s t) = chars s ++ chars t.
Proof. induction s as [|c s IH]; simpl; [reflexivity|]. f_equal. exact IH. Qed.

Lemma chars_inj (s t : string) : chars s = chars t -> s = t.
Proof.
  intros H. rewrite <- (string_of_list_ascii_of_string s),
                    <- (string_of_list_ascii_of_string t).
  unfold chars in H. rewrite H. reflexivity.
Qed.

(** Two lists cut at the first occurrence of [x]. *)
Lemma cut_at_first {A : Type} (x : A) (l1 : list A) :
  forall l2 r1 r2,
    ~ In x l1 -> ~ In x l2 -> l1 ++ x :: r1 = l2 ++ x :: r2 -> l1 = l2 /\ r1 = r2.
Proof.
  induction l1 as [|a l1 IH]; intros [|b l2] r1 r2 H1 H2 E; simpl in *.
  - injection E as <-. auto.
  - injection E as <- _. tauto.
  - injection E as -> _. tauto.
  - injection E as <- E. destruct (IH l2 r1 r2) as [-> ->]; auto.
Qed.

(** Two lists cut at the last occurrence of [x]. *)
Lemma cut_at_last {A : Type} (x : A) (l1 l2 r1 r2 : list A) :
  ~ In x r1 -> ~ In x r2 -> l1 ++ x :: r1 = l2 ++ x :: r2 -> l1 = l2 /\ r1 = r2.
Proof.
  intros H1 H2 E. apply (f_equal (@rev A)) in E.
  rewrite !rev_app_distr in E. simpl in E. rewrite <- !app_assoc in E. simpl in E.
  apply cut_at_first in E; try (rewrite <- in_rev; assumption).
  destruct E as [E1 E2].
  apply (f_equal (@rev A)) in E1, E2. rewrite !rev_involutive in E1, E2. auto.
Qed.

Definition digit_or_sign (c : ascii) : Prop :=
  In c (chars "-0123456789").

Lemma uint_chars (d : Decimal.uint) :
  Forall digit_or_sign (chars (NilEmpty.string_of_uint d)).
Proof.
  induction d; simpl; constructor; try assumption;
    unfold digit_or_sign; simpl; tauto.
Qed.

Lemma str_of_int_chars (z : Z) : Forall digit_or_sign (chars (str_of_int z)).
Proof.
  unfold str_of_int, NilZero.string_of_int, NilZero.string_of_uint.
  destruct (Z.to_int z) as [d|d]; destruct d;
    try apply uint_chars;
    try (constructor; [unfold digit_or_sign; simpl; tauto|]);
    try apply uint_chars;
    repeat constructor; unfold digit_or_sign; simpl; tauto.
Qed.

Lemma str_of_int_free (z : Z) (c : ascii) :
  ~ digit_or_sign c -> ~ In c (chars (str_of_int z)).
Proof.
  intros Hc Hin. pose proof (str_of_int_chars z) as H.
  rewrite Forall_forall in H. exact (Hc (H c Hin)).
Qed.

Lemma to_int_proper (z : Z) :
  Z.to_int z <> Decimal.Pos Decimal.Nil /\ Z.to_int z <> Decimal.Neg Decimal.Nil.
Proof.
  destruct z as [|p|p]; simpl; split; intros H; try discriminate;
    injection H as H; exact (Unsigned.to_uint_nonnil p H).
Qed.

(** [str] of an integer tells the integer. *)
Lemma str_of_int_inj (a b : Z) : str_of_int a = str_of_int b -> a = b.
Proof.
  unfold str_of_int. intros H.
  apply (f_equal NilZero.int_of_string) in H.
  destruct (to_int_proper a) as [A1 A2], (to_int_proper b) as [B1 B2].
  rewrite !NilZero.isi in H by assumption.
  injection H as H. apply (f_equal Z.of_int) in H.
  rewrite !DecimalZ.of_to in H. exact H.
Qed.

Lemma lower_ascii_sep (c : ascii) : lower_ascii c = "/"%char -> c = "/"%char.
Proof.
  destruct c as [[] [] [] [] [] [] [] []]; vm_compute; intros H;
    first [reflexivity | discriminate].
Qed.

Lemma lower_ascii_idem (c : ascii) : lower_ascii (lower_ascii c) = lower_ascii c.
Proof. destruct c as [[] [] [] [] [] [] [] []]; reflexivity. Qed.

Lemma lower_idem (s : string) : lower (lower s) = lower s.
Proof.
  induction s as [|c s IH]; simpl; [reflexivity|].
  rewrite lower_ascii_idem, IH. reflexivity.
Qed.

End PathFacts.

(** A name that is not empty and does not begin with the separator. *)
Definition relative (s : string) : Prop :=
  match s with
  | EmptyString => False
  | String c _ => c <> "/"%char
  end.

(** A string without the character [c]. *)
Definition free_of (c : ascii) (s : string) : Prop :=
  ~ In c (list_ascii_of_string s).

(** A string of ASCII characters only.  On such a string [lower] is all
    that [str.lower()] does. *)
Definition ascii_only (s : string) : Prop :=
  Forall (fun c => (nat_of_ascii c < 128)%nat) (list_ascii_of_string s).

Module JoinFacts.
Import PathFacts.

Lemma join_relative_sep (a b : string) :
  relative b ->
  join a b
  = String.append a
      (String.append
         (if (String.length a =? 0)%nat || endswith_sep a then "" else "/") b).
Proof.
  intros Hb. unfold join.
  assert (startswith_sep b = false) as ->.
  { destruct b as [|c b]; [contradiction|]. simpl in *.
    destruct c as [[] [] [] [] [] [] [] []]; try reflexivity.
    exfalso. apply Hb. reflexivity. }
  destruct ((String.length a =? 0)%nat || endswith_sep a); reflexivity.
Qed.

Lemma join_inj (a b1 b2 : string) :
  relative b1 -> relative b2 -> join a b1 = join a b2 -> b1 = b2.
Proof.
  intros H1 H2. unfold join.
  assert (forall b, relative b -> startswith_sep b = false) as Hs.
  { intros [|c b] Hb; [contradiction|]. simpl in *.
    destruct c as [[] [] [] [] [] [] [] []]; try reflexivity.
    exfalso. apply Hb. reflexivity. }
  rewrite (Hs b1 H1), (Hs b2 H2).
  destruct ((String.length a =? 0)%nat || endswith_sep a); intros E;
    apply (f_equal chars) in E; rewrite !chars_append in E;
    repeat apply app_inv_head in E; apply chars_inj; exact E.
Qed.

Lemma relative_lower_append (ds rest : string) :
  relative ds -> relative (String.append (lower ds) rest).
Proof.
  destruct ds as [|c ds]; simpl; [tauto|].
  intros Hc E. apply Hc. apply lower_ascii_sep. exact E.
Qed.

End JoinFacts.

Module MsgfileFacts.
Import PathFacts JoinFacts.

(** The part of a path after the data directory. *)
Definition entry (ds e c m k : string) : string :=
  String.concat "" [lower ds; "/db/"; e; "_"; c; "_"; m; "_"; k; ".msg"].

Lemma entry_chars (ds e c m k : string) :
  chars (entry ds e c m k)
  = (chars (lower ds) ++ chars "/db") ++
    "/"%char :: (chars e ++ "_"%char :: chars c ++ "_"%char :: chars m ++
                 "_"%char :: chars k ++ chars ".msg").
Proof.
  unfold entry. cbn [String.concat]. rewrite !chars_append. simpl.
  rewrite <- !app_assoc. reflexivity.
Qed.

Lemma entry_relative (ds e c m k : string) : relative ds -> relative (entry ds e c m k).
Proof. intros H. unfold entry. cbn [String.concat]. apply relative_lower_append, H. Qed.

Lemma not_digit_underscore : ~ digit_or_sign "_"%char.
Proof. unfold digit_or_sign. simpl. intuition discriminate. Qed.

Lemma not_digit_sep : ~ digit_or_sign "/"%char.
Proof. unfold digit_or_sign. simpl. intuition discriminate. Qed.

Lemma tail_free_of_sep (e : string) (c m k : Z) :
  free_of "/" e ->
  ~ In "/"%char (chars e ++ "_"%char :: chars (str_of_int c) ++ "_"%char ::
                 chars (str_of_int m) ++ "_"%char :: chars (str_of_int k) ++
                 chars ".msg").
Proof.
  intros He Hin.
  repeat (apply in_app_or in Hin; destruct Hin as [Hin|Hin];
          [first [exact (He Hin) | exact (str_of_int_free _ _ not_digit_sep Hin)]|];
          try (destruct Hin as [Hin|Hin]; [discriminate|])).
  simpl in Hin. intuition discriminate.
Qed.

Lemma entry_inj (ds1 ds2 e1 e2 : string) (c1 m1 k1 c2 m2 k2 : Z) :
  free_of "_" e1 -> free_of "/" e1 -> free_of "_" e2 -> free_of "/" e2 ->
  entry ds1 e1 (str_of_int c1) (str_of_int m1) (str_of_int k1)
  = entry ds2 e2 (str_of_int c2) (str_of_int m2) (str_of_int k2) ->
  lower ds1 = lower ds2 /\ e1 = e2 /\ c1 = c2 /\ m1 = m2 /\ k1 = k2.
Proof.
  intros U1 S1 U2 S2 E. apply (f_equal chars) in E. rewrite !entry_chars in E.
  apply cut_at_last in E; try (apply tail_free_of_sep; assumption).
  destruct E as [Eds E].
  apply app_inv_tail in Eds. apply chars_inj in Eds.
  apply cut_at_first in E; try assumption. destruct E as [Ee E].
  apply cut_at_first in E; try (apply str_of_int_free, not_digit_underscore).
  destruct E as [Ec E].
  apply cut_at_first in E; try (apply str_of_int_free, not_digit_underscore).
  destruct E as [Em E].
  apply app_inv_tail in E.
  repeat split; [exact Eds | apply chars_inj; exact Ee | | |];
    apply str_of_int_inj, chars_inj; assumption.
Qed.

End MsgfileFacts.

(** X12.  The addressing is free of collisions: for one data directory,
    two keys whose elements are strings without "_" and "/", whose charge,
    multiplicity and excitation are integers and whose dataset names are
    ASCII, not empty and do not begin with "/" resolve to the same path
    only if they have the same element, charge, multiplicity and excitation
    and dataset names equal up to the case of letters. *)
Theorem msgfile_injective (e1 e2 ds1 ds2 datapath : string) (c1 m1 k1 c2 m2 k2 : Z)
  (He1 : free_of "_" e1 /\ free_of "/" e1)
  (He2 : free_of "_" e2 /\ free_of "/" e2)
  (Hds1 : relative ds1 /\ ascii_only ds1)
  (Hds2 : relative ds2 /\ ascii_only ds2)
  (Hsame :
     _msgfile (PStr e1) (PInt c1) (PInt m1) (PInt k1) (PStr ds1) datapath
     = _msgfile (PStr e2) (PInt c2) (PInt m2) (PInt k2) (PStr ds2) datapath) :
  e1 = e2 /\ c1 = c2 /\ m1 = m2 /\ k1 = k2 /\ lower ds1 = lower ds2.
Proof.
  destruct Hds1 as [R1 _], Hds2 as [R2 _].
  rewrite !msgfile_of_symbol in Hsame. injection Hsame as E.
  apply JoinFacts.join_inj in E;
    try (apply (MsgfileFacts.entry_relative _ _ _ _ _); assumption).
  destruct He1 as [U1 S1], He2 as [U2 S2].
  destruct (MsgfileFacts.entry_inj _ _ _ _ _ _ _ _ _ _ U1 S1 U2 S2 E)
    as (Hds & He & Hc & Hm & Hk).
  auto.
Qed.

Lemma msgfile_injective_witness :
  "H" = "H" /\ 0 = 0 /\ 2 = 2 /\ 0 = 0 /\ lower "HCI" = lower "hci".
Proof.
  apply (msgfile_injective "H" "H" "HCI" "hci" "data" 0 2 0 0 2 0).
  - split; unfold free_of; simpl; intuition discriminate.
  - split; unfold free_of; simpl; intuition discriminate.
  - split; [simpl; discriminate|].
    unfold ascii_only; simpl;
      repeat (apply Forall_cons; [apply Nat.ltb_lt; reflexivity|]); apply Forall_nil.
  - split; [simpl; discriminate|].
    unfold ascii_only; simpl;
      repeat (apply Forall_cons; [apply Nat.ltb_lt; reflexivity|]); apply Forall_nil.
  - vm_compute. reflexivity.
Defined.

(** X13.  The path of a key lies under the data directory whenever the
    dataset name is ASCII, not empty and does not begin with "/": it is the
    data directory, then a "/" unless the directory is empty or ends with
    one, then the lower-cased dataset name, "/db/" and the file name. *)
Theorem msgfile_under_datapath (e ds datapath : string) (c m k : Z)
  (Hds : relative ds /\ ascii_only ds) :
  _msgfile (PStr e) (PInt c) (PInt m) (PInt k) (PStr ds) datapath
  = Ok (String.concat ""
          [datapath;
           if (String.length datapath =? 0)%nat || endswith_sep datapath
           then "" else "/";
           lower ds; "/db/"; e; "_"; str_of_int c; "_";
           str_of_int m; "_"; str_of_int k; ".msg"]).
Proof.
  destruct Hds as [Hrel _].
  rewrite msgfile_of_symbol. f_equal.
  exact (JoinFacts.join_relative_sep datapath
           (MsgfileFacts.entry ds e (str_of_int c) (str_of_int m) (str_of_int k))
           (MsgfileFacts.entry_relative _ _ _ _ _ Hrel)).
Qed.

Lemma msgfile_under_datapath_witness :
  _msgfile (PStr "H") (PInt 0) (PInt 2) (PInt 0) (PStr "hci") "data"
  = Ok (String.concat ""
          ["data";
           if (String.length "data" =? 0)%nat || endswith_sep "data" then "" else "/";
           lower "hci"; "/db/"; "H"; "_"; str_of_int 0; "_";
           str_of_int 2; "_"; str_of_int 0; ".msg"]).
Proof.
  apply (msgfile_under_datapath "H" "hci" "data" 0 2 0).
  split; [simpl; discriminate|].
  unfold ascii_only; simpl;
      repeat (apply Forall_cons; [apply Nat.ltb_lt; reflexivity|]); apply Forall_nil.
Defined.

(** X14.  A dataset name that begins with "/" makes the path absolute: the
    data directory plays no part in it. *)
Theorem msgfile_absolute_dataset (elem charge mult nexc : pyval)
  (ds datapath datapath' : string)
  (Hds : startswith_sep ds = true) :
  _msgfile elem charge mult nexc (PStr ds) datapath
  = _msgfile elem charge mult nexc (PStr ds) datapath'.
Proof.
  unfold _msgfile. cbn [str_lower bind].
  destruct (format_field elem) as [e|]; [|reflexivity].
  destruct (format_field charge) as [c|]; [|reflexivity].
  destruct (format_field mult) as [m|]; [|reflexivity].
  destruct (format_field nexc) as [k|]; [|reflexivity].
  cbn [bind]. f_equal. unfold join.
  assert (startswith_sep
            (String.concat "" [lower ds; "/db/"; e; "_"; c; "_"; m; "_"; k; ".msg"])
          = true) as ->; [|reflexivity].
  destruct ds as [|a ds]; [discriminate|]. cbn [String.concat lower String.append].
  simpl in Hds.
  destruct a as [[] [] [] [] [] [] [] []]; try discriminate Hds. reflexivity.
Qed.

Lemma msgfile_absolute_dataset_witness :
  _msgfile (PStr "H") (PInt 0) (PInt 2) (PInt 0) (PStr "/tmp") "data"
  = _msgfile (PStr "H") (PInt 0) (PInt 2) (PInt 0) (PStr "/tmp") "elsewhere".
Proof.
  apply (msgfile_absolute_dataset _ _ _ _ "/tmp" "data" "elsewhere"). reflexivity.
Defined.

(** ** MessagePack streams: what follows a message, and cut streams *)

Module CutFacts.
Import Msgpack MsgpackFacts UnpackFacts.

Lemma take_short (n : nat) (p : list byte) :
  (List.length p < n)%nat -> take n p = Raise OutOfData.
Proof.
  intros H. unfold take.
  assert ((List.length p <? n)%nat = true) as -> by (apply Nat.ltb_lt; exact H).
  reflexivity.
Qed.

Lemma cut_shorter {A : Type} (p q l : list A) :
  p ++ q = l -> q <> [] -> (List.length p < List.length l)%nat.
Proof.
  intros <- Hq. rewrite length_app. destruct q; [contradiction|]. simpl. lia.
Qed.

Lemma cut_cons {A : Type} (p q t : list A) (b : A) :
  p ++ q = b :: t -> q <> [] -> p = [] \/ exists p', p = b :: p' /\ p' ++ q = t.
Proof.
  destruct p as [|a p]; [auto|]. simpl. intros E _. injection E as -> E. eauto.
Qed.

(** A cut through [a ++ b] falls in [a] or in [b]. *)
Lemma cut_app {A : Type} (p q a b : list A) :
  p ++ q = a ++ b -> q <> [] ->
  (exists l, l <> [] /\ p ++ l = a) \/ (exists p', p = a ++ p' /\ p' ++ q = b).
Proof.
  intros E Hq. apply app_eq_app in E as [l [[-> ->]|[-> ->]]].
  - right. eauto.
  - destruct l as [|x l].
    + right. exists []. rewrite !app_nil_r. split; [reflexivity|]. reflexivity.
    + left. exists (x :: l). split; [discriminate|reflexivity].
Qed.

(** A reader that raises on every proper beginning of [bs]. *)
Definition cut_fails {A : Type} (u : list byte -> result A) (bs : list byte) : Prop :=
  forall p q, p ++ q = bs -> q <> [] -> u p = Raise OutOfData.

Lemma take_str_cut (raw : list byte) :
  cut_fails (take_str (Z.of_nat (List.length raw))) raw.
Proof.
  intros p q E Hq. unfold take_str. rewrite Nat2Z.id.
  rewrite take_short by exact (cut_shorter p q raw E Hq). reflexivity.
Qed.

Lemma take_bin_cut (raw : list byte) :
  cut_fails (take_bin (Z.of_nat (List.length raw))) raw.
Proof.
  intros p q E Hq. unfold take_bin. rewrite Nat2Z.id.
  rewrite take_short by exact (cut_shorter p q raw E Hq). reflexivity.
Qed.

Lemma take_uint_cut (k : nat) (z : Z) : cut_fails (take_uint k) (be_bytes k z).
Proof.
  intros p q E Hq. unfold take_uint.
  rewrite take_short; [reflexivity|].
  rewrite <- (be_bytes_length k z). exact (cut_shorter p q _ E Hq).
Qed.

Lemma take_int_cut (k : nat) (z : Z) : cut_fails (take_int k) (be_bytes k z).
Proof.
  intros p q E Hq. unfold take_int.
  rewrite take_short; [reflexivity|].
  rewrite <- (be_bytes_length k z). exact (cut_shorter p q _ E Hq).
Qed.

Lemma take_f64_cut (x : float64) : cut_fails take_f64 (f64_be x).
Proof.
  intros p q E Hq. destruct x. simpl in E.
  assert (List.length p < 8)%nat as Hlt
    by (apply (cut_shorter p q _ E Hq)).
  do 8 (destruct p as [|? p]; [reflexivity|]). simpl in Hlt. lia.
Qed.

(** A length field and what it announces. *)
Lemma length_field_cut (k : nat) (n : Z) (body : list byte)
  (next : Z -> list byte -> result (pyval * list byte)) :
  0 <= n < 256 ^ Z.of_nat k ->
  cut_fails (next n) body ->
  cut_fails (fun p => '(m, r) <- take_be k p ;; next m r) (be_bytes k n ++ body).
Proof.
  intros Hn Hnext p q E Hq.
  destruct (cut_app p q _ _ E Hq) as [(l & Hl & El)|(p' & -> & Ep')].
  - unfold take_be. rewrite take_short; [reflexivity|].
    rewrite <- (be_bytes_length k n). exact (cut_shorter p l _ El Hl).
  - rewrite take_be_app by exact Hn. cbn [bind]. exact (Hnext p' q Ep' Hq).
Qed.

Ltac by_cases H :=
  repeat match type of H with
         | (if ?a <? ?b then _ else _) = _ =>
             let E := fresh "E" in
             destruct (a <? b) eqn:E;
             [apply Z.ltb_lt in E | apply Z.ltb_ge in E]; norm_pow E
         end;
  try discriminate H; apply Ok_inj in H; subst.

(** The object after a format byte, as a reader of the rest. *)
Lemma unpack_cut_cons (f : nat) (b : byte) (t : list byte) :
  cut_fails (unpack_tagged (unpack f) (byte_val b)) t ->
  cut_fails (unpack (S f)) (b :: t).
Proof.
  intros H p q E Hq.
  destruct (cut_cons p q t b E Hq) as [->|(p' & -> & E')]; [reflexivity|].
  rewrite unpack_cons. exact (H p' q E' Hq).
Qed.

Lemma unpack_cut_single (f : nat) (b : byte) : cut_fails (unpack (S f)) [b].
Proof.
  intros p q E Hq.
  destruct (cut_cons p q [] b E Hq) as [->|(p' & -> & E')]; [reflexivity|].
  apply app_eq_nil in E' as [_ ->]. contradiction.
Qed.

Lemma cut_fails_ext {A : Type} (u v : list byte -> result A) (bs : list byte) :
  (forall p, u p = v p) -> cut_fails v bs -> cut_fails u bs.
Proof. intros Huv H p q E Hq. rewrite Huv. exact (H p q E Hq). Qed.

Lemma pack_int_cut (z : Z) (bs : list byte) (f : nat) :
  pack_int z = Ok bs -> cut_fails (unpack (S f)) bs.
Proof.
  unfold pack_int. intros H. by_cases H;
    try apply unpack_cut_single; apply unpack_cut_cons.
  - apply (cut_fails_ext _ (take_int 8)); [intros; apply tagged_int64|apply take_int_cut].
  - apply (cut_fails_ext _ (take_int 4)); [intros; apply tagged_int32|apply take_int_cut].
  - apply (cut_fails_ext _ (take_int 2)); [intros; apply tagged_int16|apply take_int_cut].
  - apply (cut_fails_ext _ (take_int 1)); [intros; apply tagged_int8|apply take_int_cut].
  - apply (cut_fails_ext _ (take_uint 1)); [intros; apply tagged_uint8|apply take_uint_cut].
  - apply (cut_fails_ext _ (take_uint 2)); [intros; apply tagged_uint16|apply take_uint_cut].
  - apply (cut_fails_ext _ (take_uint 4)); [intros; apply tagged_uint32|apply take_uint_cut].
  - apply (cut_fails_ext _ (take_uint 8)); [intros; apply tagged_uint64|apply take_uint_cut].
Qed.

Lemma pack_str_cut (s : string) (bs : list byte) (f : nat) :
  pack_str s = Ok bs -> cut_fails (unpack (S f)) bs.
Proof.
  unfold pack_str. cbv zeta. intros H. by_cases H; apply unpack_cut_cons.
  - rewrite byte_val_of_small by lia.
    apply (cut_fails_ext _ (take_str (Z.of_nat (List.length (list_byte_of_string s))))).
    + intros p. rewrite tagged_fixstr by lia. f_equal. lia.
    + apply take_str_cut.
  - apply (cut_fails_ext _ (fun p => '(m, r) <- take_be 1 p ;; take_str m r));
      [intros; apply tagged_str8|].
    apply length_field_cut; [rewrite pow256_1; lia|apply take_str_cut].
  - apply (cut_fails_ext _ (fun p => '(m, r) <- take_be 2 p ;; take_str m r));
      [intros; apply tagged_str16|].
    apply length_field_cut; [rewrite pow256_2; lia|apply take_str_cut].
  - apply (cut_fails_ext _ (fun p => '(m, r) <- take_be 4 p ;; take_str m r));
      [intros; apply tagged_str32|].
    apply length_field_cut; [rewrite pow256_4; lia|apply take_str_cut].
Qed.

Lemma pack_bin_cut (raw : list byte) (bs : list byte) (f : nat) :
  pack_bin raw = Ok bs -> cut_fails (unpack (S f)) bs.
Proof.
  unfold pack_bin. cbv zeta. intros H. by_cases H; apply unpack_cut_cons.
  - apply (cut_fails_ext _ (fun p => '(m, r) <- take_be 1 p ;; take_bin m r));
      [intros; apply tagged_bin8|].
    apply length_field_cut; [rewrite pow256_1; lia|apply take_bin_cut].
  - apply (cut_fails_ext _ (fun p => '(m, r) <- take_be 2 p ;; take_bin m r));
      [intros; apply tagged_bin16|].
    apply length_field_cut; [rewrite pow256_2; lia|apply take_bin_cut].
  - apply (cut_fails_ext _ (fun p => '(m, r) <- take_be 4 p ;; take_bin m r));
      [intros; apply tagged_bin32|].
    apply length_field_cut; [rewrite pow256_4; lia|apply take_bin_cut].
Qed.

Lemma pack_key_cut (k : pykey) (bs : list byte) (f : nat) :
  pack_key k = Ok bs -> cut_fails (unpack (S f)) bs.
Proof. destruct k; simpl; [apply pack_str_cut | apply pack_bin_cut]. Qed.

End CutFacts.

Module CutDictFacts.
Import Msgpack MsgpackFacts UnpackFacts CutFacts.

(** A value whose packing, cut anywhere, makes the unpacker run out of
    data, given more fuel than bytes. *)
Definition cut_safe (v : pyval) : Prop :=
  forall bs, pack v = Ok bs -> dict_ok v ->
  forall f p q, p ++ q = bs -> q <> [] -> (List.length p < f)%nat ->
    unpack f p = Raise OutOfData.

Lemma scalar_cut_safe (v : pyval) :
  (forall bs f, pack v = Ok bs -> cut_fails (unpack (S f)) bs) -> cut_safe v.
Proof.
  intros H bs Hp _ f p q E Hq Hf. destruct f as [|f]; [lia|].
  exact (H bs f Hp p q E Hq).
Qed.

Lemma entries_cut (f : nat) (d : pydict) :
  Forall (fun kv => cut_safe (snd kv)) d ->
  items_ok dict_ok d ->
  forall body, pack_items pack d = Ok body ->
  forall p q acc, p ++ q = body -> q <> [] -> (List.length p < f)%nat ->
    entries (unpack f) (List.length d) p acc = Raise OutOfData.
Proof.
  induction d as [|[k v] d IH]; intros Hall Hok body Hp p q acc E Hq Hf.
  - simpl in Hp. apply Ok_inj in Hp. subst body.
    apply app_eq_nil in E as [_ ->]. contradiction.
  - apply Forall_cons_iff in Hall as [Hv Hall']. cbn [snd] in Hv.
    destruct Hok as [Hokv Hok'].
    cbn [pack_items] in Hp.
    destruct (pack_key k) as [kb|] eqn:Ek; [|discriminate].
    destruct (pack v) as [vb|] eqn:Ev; [|discriminate].
    destruct (pack_items pack d) as [rb|] eqn:Er; [|discriminate].
    cbn [bind] in Hp. apply Ok_inj in Hp. subst body.
    cbn [List.length entries].
    destruct f as [|f]; [lia|].
    destruct (cut_app p q _ _ E Hq) as [(l & Hl & El)|(p1 & -> & E1)].
    { rewrite (pack_key_cut k kb f Ek p l El Hl). reflexivity. }
    rewrite (unpack_pack_key k kb f p1 Ek). cbn [bind].
    rewrite length_app in Hf.
    destruct (cut_app p1 q _ _ E1 Hq) as [(l & Hl & El)|(p2 & -> & E2)].
    { rewrite (Hv vb Ev Hokv (S f) p1 l El Hl) by lia. reflexivity. }
    rewrite length_app in Hf.
    rewrite (unpack_pack v vb Ev Hokv (S f) p2)
      by (pose proof (pack_length_depth v vb Ev); lia).
    cbn [bind]. rewrite as_key_value. cbn [bind].
    apply (IH Hall' Hok' rb eq_refl p2 q _ E2 Hq). lia.
Qed.

(** Every value is cut-safe. *)
Lemma all_cut_safe (v : pyval) : cut_safe v.
Proof.
  induction v as [| b | z | x | s | b | d IHd | a] using pyval_nested_ind.
  - apply scalar_cut_safe. intros bs f H. apply Ok_inj in H. subst.
    apply unpack_cut_single.
  - apply scalar_cut_safe. intros bs f H. apply Ok_inj in H. subst.
    apply unpack_cut_single.
  - apply scalar_cut_safe. intros bs f H. exact (pack_int_cut z bs f H).
  - apply scalar_cut_safe. intros bs f H. apply Ok_inj in H. subst.
    apply unpack_cut_cons.
    apply (cut_fails_ext _ take_f64); [intros; apply tagged_f64|apply take_f64_cut].
  - apply scalar_cut_safe. intros bs f H. exact (pack_str_cut s bs f H).
  - apply scalar_cut_safe. intros bs f H. exact (pack_bin_cut b bs f H).
  - intros bs Hp [Hnd Hok] f p q E Hq Hf.
    cbn [pack] in Hp.
    destruct (pack_map_header (Z.of_nat (List.length d))) as [hdr|] eqn:Eh;
      [|discriminate].
    destruct (pack_items pack d) as [body|] eqn:Eb; [|discriminate].
    cbn [bind] in Hp. apply Ok_inj in Hp. subst bs.
    destruct f as [|f]; [lia|].
    unfold pack_map_header in Eh. by_cases Eh; rewrite <- app_comm_cons in E;
      (destruct (cut_cons p q _ _ E Hq) as [->|(p' & -> & Ehd)]; [reflexivity|]);
      rewrite unpack_cons; simpl in Hf.
    + rewrite byte_val_of_small by lia. rewrite tagged_fixmap by lia.
      replace (128 + Z.of_nat (List.length d) - 128)
        with (Z.of_nat (List.length d)) by lia.
      rewrite Nat2Z.id. rewrite app_nil_l in Ehd.
      apply (entries_cut f d IHd Hok body Eb p' q [] Ehd Hq). lia.
    + rewrite tagged_map16.
      destruct (cut_app p' q _ _ Ehd Hq) as [(l & Hl & El)|(p2 & -> & Ecut)].
      * unfold take_be. rewrite take_short; [reflexivity|].
        rewrite <- (be_bytes_length 2 (Z.of_nat (List.length d))).
        exact (cut_shorter p' l _ El Hl).
      * rewrite take_be_app by (rewrite pow256_2; lia). cbn [bind].
        rewrite Nat2Z.id. rewrite length_app in Hf.
        apply (entries_cut f d IHd Hok body Eb p2 q [] Ecut Hq). lia.
    + rewrite tagged_map32.
      destruct (cut_app p' q _ _ Ehd Hq) as [(l & Hl & El)|(p2 & -> & Ecut)].
      * unfold take_be. rewrite take_short; [reflexivity|].
        rewrite <- (be_bytes_length 4 (Z.of_nat (List.length d))).
        exact (cut_shorter p' l _ El Hl).
      * rewrite take_be_app by (rewrite pow256_4; lia). cbn [bind].
        rewrite Nat2Z.id. rewrite length_app in Hf.
        apply (entries_cut f d IHd Hok body Eb p2 q [] Ecut Hq). lia.
  - intros bs Hp. discriminate.
Qed.

End CutDictFacts.

(** ** Streams that are longer or shorter than one message *)

(** X15.  What follows the first object of a stream is left unread: a
    packed message followed by any bytes unpacks to the message. *)
Theorem unpack_ignores_trailing (msg : pyval) (packed trailing : list byte)
  (Hpack : pack_msg msg = Ok packed) (Hok : dict_ok msg) :
  unpack_msg (packed ++ trailing) = Ok msg.
Proof.
  unfold unpack_msg.
  pose proof (UnpackFacts.pack_length_depth msg packed Hpack) as Hd.
  rewrite (UnpackFacts.unpack_pack msg packed Hpack Hok)
    by (rewrite length_app; lia).
  reflexivity.
Qed.

Lemma unpack_ignores_trailing_witness :
  unpack_msg ([x81; xa1; x61; x01] ++ [xc1; xff])
  = Ok (PDict [(KStr "a", PInt 1)]).
Proof.
  apply (unpack_ignores_trailing (PDict [(KStr "a", PInt 1)])).
  - vm_compute. reflexivity.
  - vm_compute. repeat split; repeat constructor; simpl; intuition discriminate.
Defined.

(** X16.  A packed message cut short anywhere, down to the empty stream,
    is reported as running out of data: no proper prefix of a packed message
    unpacks to a value or fails in another way. *)
Theorem truncated_stream_out_of_data (msg : pyval) (packed : list byte) (n : nat)
  (Hpack : pack_msg msg = Ok packed) (Hok : dict_ok msg)
  (Hcut : (n < List.length packed)%nat) :
  unpack_msg (firstn n packed) = Raise OutOfData.
Proof.
  unfold unpack_msg.
  rewrite (CutDictFacts.all_cut_safe msg packed Hpack Hok
             (S (List.length (firstn n packed))) (firstn n packed) (skipn n packed)).
  - reflexivity.
  - apply firstn_skipn.
  - intros E. apply (f_equal (@List.length byte)) in E.
    rewrite length_skipn in E. simpl in E. lia.
  - lia.
Qed.

Lemma truncated_stream_out_of_data_witness :
  unpack_msg (firstn 3 [x81; xa1; x61; x01]) = Raise OutOfData.
Proof.
  apply (truncated_stream_out_of_data (PDict [(KStr "a", PInt 1)])).
  - vm_compute. reflexivity.
  - vm_compute. repeat split; repeat constructor; simpl; intuition discriminate.
  - simpl. lia.
Defined.

(** ** Loading a file that was cut short *)

(** X19.  A database file that holds only the beginning of what a dump
    wrote is never loaded as a record: the load runs out of data. *)
Theorem load_truncated_file (r : Species) (datapath : string) (fs fs' : filesystem)
  (Htyped : well_typed r)
  (Hdump : _dump r datapath fs = (fs', Ok tt)) :
  exists fn content,
    _msgfile (elem r) (charge r) (mult r) (nexc r) (dataset r) datapath = Ok fn /\
    fs' fn = Some content /\
    forall n, (n < List.length content)%nat ->
      load (elem r) (charge r) (mult r) (nexc r) (dataset r) datapath
           (fs_write fs' fn (firstn n content))
      = Raise OutOfData.
Proof.
  unfold _dump in Hdump.
  destruct (_msgfile (elem r) (charge r) (mult r) (nexc r) (dataset r) datapath)
    as [fn|] eqn:Efn; [|discriminate].
  rewrite CodecFacts.dump_msg in Hdump.
  destruct (pack_msg (PDict (map (fun kv => (fst kv, CodecFacts.wire (snd kv))) (asdict r))))
    as [packed|] eqn:Ep; [|discriminate].
  injection Hdump as <-.
  exists fn, packed. split; [reflexivity|split; [apply fs_write_same|]].
  intros n Hn.
  rewrite (LoadFacts.load_found _ _ _ _ _ _ fn _ (firstn n packed) Efn
             (fs_write_same _ fn _)).
  unfold unpack_msg.
  rewrite (CutDictFacts.all_cut_safe _ packed Ep (RoundTrip.dump_msg_ok r Htyped)
             (S (List.length (firstn n packed))) (firstn n packed) (skipn n packed)).
  - reflexivity.
  - apply firstn_skipn.
  - intros E. apply (f_equal (@List.length byte)) in E.
    rewrite length_skipn in E. simpl in E. lia.
  - lia.
Qed.

Lemma load_truncated_file_witness :
  exists fn content,
    _msgfile (PStr "H") (PInt 0) (PInt 2) (PInt 0) DEFAULT_DATASET "data" = Ok fn /\
    fst (_dump hydrogen "data" no_files) fn = Some content /\
    forall n, (n < List.length content)%nat ->
      load (PStr "H") (PInt 0) (PInt 2) (PInt 0) DEFAULT_DATASET "data"
           (fs_write (fst (_dump hydrogen "data" no_files)) fn (firstn n content))
      = Raise OutOfData.
Proof.
  apply (load_truncated_file hydrogen "data" no_files).
  - apply hydrogen_well_typed; left; exact I.
  - vm_compute. reflexivity.
Defined.

(** ** Raw data file names *)

(** X20.  The name of a raw data file depends on the element only through
    its atomic number: a symbol and its number name the same file. *)
Theorem datafile_normalises_element (suffix datapath : string)
  (e1 e2 charge mult nexc dataset : pyval)
  (Hnum : element_number e1 = element_number e2) :
  datafile suffix e1 charge mult nexc dataset datapath
  = datafile suffix e2 charge mult nexc dataset datapath.
Proof. unfold datafile. rewrite Hnum. reflexivity. Qed.

Lemma datafile_normalises_element_witness :
  datafile ".out" (PStr "He") (PInt 0) (PInt 1) (PInt 0) (PStr "hci") "data"
  = datafile ".out" (PInt 2) (PInt 0) (PInt 1) (PInt 0) (PStr "hci") "data".
Proof.
  apply (datafile_normalises_element ".out" "data" (PStr "He") (PInt 2)).
  vm_compute. reflexivity.
Defined.

(** X21.  Outside the "hci" family of datasets no raw data file has a name:
    whatever the other arguments are, the prefix is used unassigned. *)
Theorem datafile_outside_hci (suffix datapath ds : string)
  (elem charge mult nexc : pyval)
  (Hfamily : before_underscore ds <> "hci") :
  datafile suffix elem charge mult nexc (PStr ds) datapath
  = Raise (UnboundLocalError "prefix").
Proof.
  unfold datafile.
  destruct (String.eqb (before_underscore ds) "hci") eqn:E; [|reflexivity].
  apply String.eqb_eq in E. contradiction.
Qed.

Lemma datafile_outside_hci_witness :
  datafile ".out" (PStr "He") (PInt 0) (PInt 1) (PInt 0) (PStr "slater") "data"
  = Raise (UnboundLocalError "prefix").
Proof.
  apply (datafile_outside_hci ".out" "data" "slater").
  vm_compute. discriminate.
Defined.

(** ** The data directory with and without its final separator *)

Lemma endswith_sep_append (a : string) : endswith_sep (String.append a "/") = true.
Proof.
  induction a as [|c a IH]; [reflexivity|].
  cbn [String.append endswith_sep]. rewrite IH.
  destruct (String.append a "/") eqn:E; [|reflexivity].
  destruct a; discriminate E.
Qed.

Lemma join_trailing_sep (a b : string) :
  a <> "" -> endswith_sep a = false ->
  join (String.append a "/") b = join a b.
Proof.
  intros Ha He. unfold join.
  destruct (startswith_sep b); [reflexivity|].
  rewrite endswith_sep_append, He, Bool.orb_true_r.
  destruct a as [|c a]; [contradiction|]. cbn [String.length Nat.eqb orb].
  clear. cbn [String.append]. f_equal.
  induction a as [|d a IH]; [reflexivity|]. cbn [String.append]. f_equal. exact IH.
Qed.

(** X22.  A data directory names the same files with and without a final
    "/": the paths of a database entry and of a raw data file do not change
    when a "/" is added to a non-empty directory that does not end with
    one. *)
Theorem datapath_trailing_separator (suffix datapath : string)
  (elem charge mult nexc dataset : pyval)
  (Hdir : datapath <> "") (Hend : endswith_sep datapath = false) :
  _msgfile elem charge mult nexc dataset (String.append datapath "/")
  = _msgfile elem charge mult nexc dataset datapath /\
  datafile suffix elem charge mult nexc dataset (String.append datapath "/")
  = datafile suffix elem charge mult nexc dataset datapath.
Proof.
  split.
  - unfold _msgfile.
    destruct (str_lower dataset) as [d|]; [|reflexivity].
    destruct (format_field elem) as [e|]; [|reflexivity].
    destruct (format_field charge) as [c|]; [|reflexivity].
    destruct (format_field mult) as [m|]; [|reflexivity].
    destruct (format_field nexc) as [k|]; [|reflexivity].
    cbn [bind]. rewrite (join_trailing_sep _ _ Hdir Hend). reflexivity.
  - unfold datafile. destruct dataset; try reflexivity.
    destruct (String.eqb (before_underscore s) "hci"); [|reflexivity].
    destruct (element_number elem) as [number|]; [|reflexivity]. cbn [bind].
    destruct (format_field number) as [prefix|]; [|reflexivity].
    destruct (format_field charge) as [c|]; [|reflexivity].
    destruct (format_02 mult) as [m|]; [|reflexivity].
    destruct (format_02 nexc) as [k|]; [|reflexivity].
    cbn [bind]. rewrite (join_trailing_sep _ _ Hdir Hend). reflexivity.
Qed.

Lemma datapath_trailing_separator_witness :
  _msgfile (PStr "H") (PInt 0) (PInt 2) (PInt 0) (PStr "hci") "data/"
  = _msgfile (PStr "H") (PInt 0) (PInt 2) (PInt 0) (PStr "hci") "data" /\
  datafile ".out" (PStr "H") (PInt 0) (PInt 2) (PInt 0) (PStr "hci") "data/"
  = datafile ".out" (PStr "H") (PInt 0) (PInt 2) (PInt 0) (PStr "hci") "data".
Proof.
  apply (datapath_trailing_separator ".out" "data").
  - discriminate.
  - reflexivity.
Defined.
